(** * LlamaCrew: the task-dependency orchestration engine

    A shallow embedding of [llamacrew/core], [llamacrew/memory],
    [llamacrew/orchestration/engine.py] and the agent part of
    [llamacrew/parser/yaml_parser.py], followed by the properties of the
    specification proved (or refuted) on it.

    Modelling conventions.
    - Python objects that are mutated and shared (the [Task] instances) live
      in a store, a list indexed by object reference; a [Task]'s
      [dependencies] is a list of references, so aliasing is kept.
    - A Python [dict] is an insertion-ordered association list ([PyDict]).
    - A raised exception is a value of [exn]; a call that may raise returns
      an [outcome].  Only instances of [Exception] are modelled (what
      [except Exception] catches).
    - Recursion that is not structural (the depth-first search, the engine's
      [while] loop) takes a fuel argument; [None] means the fuel ran out.
    - [print] calls are not modelled; the wall clock and the turn executor
      are functions on an abstract world state. *)

From Stdlib Require Import Floats.
From stdpp Require Import base gmap strings list sets pretty.

Set Warnings "-register-all,-inexact-float,-clear-no-such-hyp".
Open Scope string_scope.
Open Scope list_scope.
Open Scope nat_scope.

(** ** Python values (the JSON-serialisable ones) *)

Inductive pyval :=
  | VNone
  | VBool (b : bool)
  | VInt (z : Z)
  | VFloat (f : float)
  | VStr (s : string)
  | VList (l : list pyval)
  | VDict (d : list (string * pyval)).

Definition nl : string := String (Ascii.ascii_of_nat 10) EmptyString.

(** ["sep".join(parts)] *)
Fixpoint join (sep : string) (parts : list string) : string :=
  match parts with
  | [] => ""
  | [p] => p
  | p :: rest => p +:+ sep +:+ join sep rest
  end.

(** ** Exceptions *)

Record exn := Exn { exn_class : string; exn_text : string }.

Definition ValueError (msg : string) : exn := Exn "ValueError" msg.
Definition RuntimeError (msg : string) : exn := Exn "RuntimeError" msg.
Definition KeyError (key : string) : exn := Exn "KeyError" key.
Definition TypeError (msg : string) : exn := Exn "TypeError" msg.
Definition FileNotFoundError (msg : string) : exn := Exn "FileNotFoundError" msg.

Inductive outcome (A : Type) :=
  | Ok (a : A)
  | Raise (e : exn).
Arguments Ok {A} a.
Arguments Raise {A} e.

#[export] Instance outcome_ret : MRet outcome := fun A a => Ok a.
#[export] Instance outcome_bind : MBind outcome := fun A B f m =>
  match m with
  | Ok a => f a
  | Raise e => Raise e
  end.

(** Traverse a list with a call that may raise, left to right. *)
Fixpoint mapO {A B} (f : A → outcome B) (l : list A) : outcome (list B) :=
  match l with
  | [] => Ok []
  | x :: r => y ← f x; ys ← mapO f r; Ok (y :: ys)
  end.

(** ** [dict]: insertion-ordered, at most one entry per key *)

Module PyDict.

Definition t (V : Type) := list (string * V).

Section Ops.
Context {V : Type}.

(** [d.get(k)] without default: [None] when the key is absent. *)
Fixpoint get (k : string) (d : t V) : option V :=
  match d with
  | [] => None
  | (k', v) :: r => if String.eqb k k' then Some v else get k r
  end.

(** [k in d] *)
Definition contains (k : string) (d : t V) : bool :=
  match get k d with Some _ => true | None => false end.

(** [d.get(k, dflt)] *)
Definition get_default (k : string) (dflt : V) (d : t V) : V :=
  default dflt (get k d).

(** [d[k]], [KeyError] when absent *)
Definition item (k : string) (d : t V) : outcome V :=
  match get k d with
  | Some v => Ok v
  | None => Raise (KeyError k)
  end.

(** [d[k] = v]: an existing key keeps its position, a new one goes last. *)
Fixpoint set (k : string) (v : V) (d : t V) : t V :=
  match d with
  | [] => [(k, v)]
  | (k', v') :: r =>
      if String.eqb k k' then (k, v) :: r else (k', v') :: set k v r
  end.

(** [del d[k]] (the caller has checked [k in d]) *)
Fixpoint del (k : string) (d : t V) : t V :=
  match d with
  | [] => []
  | (k', v') :: r =>
      if String.eqb k k' then del k r else (k', v') :: del k r
  end.

(** [list(d.keys())] *)
Definition keys (d : t V) : list string := d.*1.

(** [{}] *)
Definition empty : t V := [].
End Ops.

End PyDict.

(** Truthiness of a [dict] or a [str] *)
Definition truthy_dict {V} (d : PyDict.t V) : bool :=
  match d with [] => false | _ => true end.
Definition truthy_str (s : string) : bool :=
  match s with EmptyString => false | _ => true end.

(** Field coercions used when a record is rebuilt from a document.  Python
    would store a value of any type; the typed records below cannot, so an
    ill-typed field is reported as a [TypeError]. *)
Definition as_str (v : pyval) : outcome string :=
  match v with VStr s => Ok s | _ => Raise (TypeError "expected str") end.
Definition as_bool (v : pyval) : outcome bool :=
  match v with VBool b => Ok b | _ => Raise (TypeError "expected bool") end.
Definition as_int (v : pyval) : outcome Z :=
  match v with VInt z => Ok z | _ => Raise (TypeError "expected int") end.
Definition as_dict (v : pyval) : outcome (PyDict.t pyval) :=
  match v with VDict d => Ok d | _ => Raise (TypeError "expected dict") end.
Definition as_list (v : pyval) : outcome (list pyval) :=
  match v with VList l => Ok l | _ => Raise (TypeError "expected list") end.
Definition as_str_list (v : pyval) : outcome (list string) :=
  l ← as_list v; mapO as_str l.
Definition as_opt_str (v : pyval) : outcome (option string) :=
  match v with
  | VNone => Ok None
  | VStr s => Ok (Some s)
  | _ => Raise (TypeError "expected str or None")
  end.
Definition as_opt_int (v : pyval) : outcome (option Z) :=
  match v with
  | VNone => Ok None
  | VInt z => Ok (Some z)
  | _ => Raise (TypeError "expected int or None")
  end.

Definition of_opt_str (o : option string) : pyval :=
  match o with Some s => VStr s | None => VNone end.
Definition of_opt_int (o : option Z) : pyval :=
  match o with Some z => VInt z | None => VNone end.

(** ** core/agent.py *)

Module Agent.

Record t := mk {
  role : string;
  goal : string;
  backstory : string;
  tools : list string;
  llm_config : PyDict.t pyval;
  agent_id : string;
  verbose : bool;
  max_iterations : Z;
  allow_delegation : bool;
  memory_enabled : bool
}.

Definition with_llm_config (cfg : PyDict.t pyval) (self : t) : t :=
  mk (role self) (goal self) (backstory self) (tools self) cfg
     (agent_id self) (verbose self) (max_iterations self)
     (allow_delegation self) (memory_enabled self).

(** The two defaulting steps of [__post_init__]. *)
Definition default_llm_config (cfg : PyDict.t pyval) : PyDict.t pyval :=
  let cfg :=
    if negb (PyDict.contains "model" cfg)
    then PyDict.set "model" (VStr "llama3-70b") cfg else cfg in
  let cfg :=
    if negb (PyDict.contains "temperature" cfg)
    then PyDict.set "temperature" (VFloat 0.7) cfg else cfg in
  cfg.

(** [Agent.__post_init__]: runs at the end of every construction. *)
Definition __post_init__ (self : t) : outcome t :=
  if negb (truthy_str (role self)) then
    Raise (ValueError "Agent role cannot be empty")
  else if negb (truthy_str (goal self)) then
    Raise (ValueError "Agent goal cannot be empty")
  else Ok (with_llm_config (default_llm_config (llm_config self)) self).

(** The dataclass constructor: assign the fields, then [__post_init__].
    [agent_id] is passed explicitly; its default is a fresh [uuid4]. *)
Definition new (role goal backstory : string) (tools : list string)
    (llm_config : PyDict.t pyval) (agent_id : string) (verbose : bool)
    (max_iterations : Z) (allow_delegation memory_enabled : bool) : outcome t :=
  __post_init__
    (mk role goal backstory tools llm_config agent_id verbose max_iterations
        allow_delegation memory_enabled).

Definition to_dict (self : t) : PyDict.t pyval :=
  [ ("agent_id", VStr (agent_id self));
    ("role", VStr (role self));
    ("goal", VStr (goal self));
    ("backstory", VStr (backstory self));
    ("tools", VList (VStr <$> tools self));
    ("llm_config", VDict (llm_config self));
    ("verbose", VBool (verbose self));
    ("max_iterations", VInt (max_iterations self));
    ("allow_delegation", VBool (allow_delegation self));
    ("memory_enabled", VBool (memory_enabled self)) ].

(** [Agent.from_dict]; [uuid] is the value of [str(uuid4())]. *)
Definition from_dict (uuid : string) (data : PyDict.t pyval) : outcome t :=
  agent_id ← as_str (PyDict.get_default "agent_id" (VStr uuid) data);
  role ← PyDict.item "role" data ≫= as_str;
  goal ← PyDict.item "goal" data ≫= as_str;
  backstory ← as_str (PyDict.get_default "backstory" (VStr "") data);
  tools ← as_str_list (PyDict.get_default "tools" (VList []) data);
  llm_config ← as_dict (PyDict.get_default "llm_config" (VDict []) data);
  verbose ← as_bool (PyDict.get_default "verbose" (VBool true) data);
  max_iterations ← as_int (PyDict.get_default "max_iterations" (VInt 15) data);
  allow_delegation ←
    as_bool (PyDict.get_default "allow_delegation" (VBool false) data);
  memory_enabled ←
    as_bool (PyDict.get_default "memory_enabled" (VBool true) data);
  new role goal backstory tools llm_config agent_id verbose max_iterations
      allow_delegation memory_enabled.

End Agent.

#[export] Instance agent_inhabited : Inhabited Agent.t :=
  populate (Agent.mk "" "" "" [] [] "" true 15 false true).

(** ** core/task.py *)

Inductive TaskStatus := PENDING | IN_PROGRESS | COMPLETED | FAILED | SKIPPED.

#[export] Instance TaskStatus_eq_dec : EqDecision TaskStatus.
Proof. solve_decision. Defined.

(** [status.value] *)
Definition TaskStatus_value (s : TaskStatus) : string :=
  match s with
  | PENDING => "pending"
  | IN_PROGRESS => "in_progress"
  | COMPLETED => "completed"
  | FAILED => "failed"
  | SKIPPED => "skipped"
  end.

(** [TaskStatus(value)]: lookup by value, [ValueError] when there is none *)
Definition TaskStatus_of_value (v : string) : outcome TaskStatus :=
  if String.eqb v "pending" then Ok PENDING
  else if String.eqb v "in_progress" then Ok IN_PROGRESS
  else if String.eqb v "completed" then Ok COMPLETED
  else if String.eqb v "failed" then Ok FAILED
  else if String.eqb v "skipped" then Ok SKIPPED
  else Raise (ValueError (v +:+ " is not a valid TaskStatus")).

(** References to [Task] objects, and the store that holds them. *)
Abbreviation ref := nat (only parsing).

Module Task.

Record t := mk {
  description : string;
  agent : Agent.t;
  expected_output : string;
  dependencies : list ref;
  context : PyDict.t pyval;
  async_execution : bool;
  task_id : string;
  status : TaskStatus;
  result : option string;
  error : option string
}.

Definition with_status (s : TaskStatus) (self : t) : t :=
  mk (description self) (agent self) (expected_output self)
     (dependencies self) (context self) (async_execution self)
     (task_id self) s (result self) (error self).
Definition with_result (r : option string) (self : t) : t :=
  mk (description self) (agent self) (expected_output self)
     (dependencies self) (context self) (async_execution self)
     (task_id self) (status self) r (error self).
Definition with_error (e : option string) (self : t) : t :=
  mk (description self) (agent self) (expected_output self)
     (dependencies self) (context self) (async_execution self)
     (task_id self) (status self) (result self) e.
Definition with_dependencies (deps : list ref) (self : t) : t :=
  mk (description self) (agent self) (expected_output self)
     deps (context self) (async_execution self)
     (task_id self) (status self) (result self) (error self).

(** [Task.__post_init__]; an [Agent] instance is always truthy. *)
Definition __post_init__ (self : t) : outcome t :=
  if negb (truthy_str (description self)) then
    Raise (ValueError "Task description cannot be empty")
  else Ok self.

(** The four mark-operations, on the object itself. *)
Definition mark_in_progress (self : t) : t := with_status IN_PROGRESS self.
Definition mark_completed (result : string) (self : t) : t :=
  with_result (Some result) (with_status COMPLETED self).
Definition mark_failed (error : string) (self : t) : t :=
  with_error (Some error) (with_status FAILED self).
Definition mark_skipped (self : t) : t := with_status SKIPPED self.

#[global] Instance inhabited : Inhabited t :=
  populate (mk "" inhabitant "" [] [] false "" PENDING None None).

(** The store of [Task] objects; [h !!! r] is the object behind [r]. *)
Abbreviation store := (list t).

(** A method call [task.m()] that mutates the object behind [self]. *)
Definition update (m : t → t) (self : ref) (h : store) : store :=
  alter m self h.

(** [Task.is_ready]: reads the current status of every dependency. *)
Definition is_ready (h : store) (self : ref) : bool :=
  forallb (λ dep, bool_decide (status (h !!! dep) = COMPLETED))
          (dependencies (h !!! self)).

Section Prompt.
(** Python's [str()] on the values of a free-form map. *)
Variable py_str : pyval → string.

(** [Task.get_prompt] *)
Definition get_prompt (h : store) (self : ref) : string :=
  let task := h !!! self in
  let prompt_parts := ["# Task" +:+ nl +:+ description task] in
  let prompt_parts :=
    if truthy_str (expected_output task)
    then prompt_parts ++ [nl +:+ "# Expected Output" +:+ nl +:+ expected_output task]
    else prompt_parts in
  let prompt_parts :=
    if truthy_dict (context task)
    then prompt_parts ++ [nl +:+ "# Context"] ++
         ((λ kv, "- " +:+ kv.1 +:+ ": " +:+ py_str kv.2) <$> context task)
    else prompt_parts in
  let prompt_parts :=
    match dependencies task with
    | [] => prompt_parts
    | deps =>
        prompt_parts ++ [nl +:+ "# Previous Results"] ++
        omap (λ dep,
                match result (h !!! dep) with
                | Some r =>
                    if truthy_str r
                    then Some ("- " +:+ Agent.role (agent (h !!! dep)) +:+ ": " +:+ r)
                    else None
                | None => None
                end) deps
    end in
  join nl prompt_parts.
End Prompt.

(** [Task.to_dict]: the agent and the dependencies are reduced to ids. *)
Definition to_dict (h : store) (self : ref) : PyDict.t pyval :=
  let task := h !!! self in
  [ ("task_id", VStr (task_id task));
    ("description", VStr (description task));
    ("agent_id", VStr (Agent.agent_id (agent task)));
    ("expected_output", VStr (expected_output task));
    ("dependencies",
       VList ((λ dep, VStr (task_id (h !!! dep))) <$> dependencies task));
    ("context", VDict (context task));
    ("async_execution", VBool (async_execution task));
    ("status", VStr (TaskStatus_value (status task)));
    ("result", of_opt_str (result task));
    ("error", of_opt_str (error task)) ].

(** [Task.from_dict]: builds the object, which the caller then holds;
    [uuid] is the value of [str(uuid4())]. *)
Definition from_dict (uuid : string) (data : PyDict.t pyval) (agent : Agent.t)
    (dependencies : list ref) : outcome t :=
  task_id ← as_str (PyDict.get_default "task_id" (VStr uuid) data);
  description ← PyDict.item "description" data ≫= as_str;
  expected_output ← as_str (PyDict.get_default "expected_output" (VStr "") data);
  context ← as_dict (PyDict.get_default "context" (VDict []) data);
  async_execution ←
    as_bool (PyDict.get_default "async_execution" (VBool false) data);
  status ← as_str (PyDict.get_default "status" (VStr "pending") data)
             ≫= TaskStatus_of_value;
  result ← as_opt_str (PyDict.get_default "result" VNone data);
  error ← as_opt_str (PyDict.get_default "error" VNone data);
  __post_init__
    (mk description agent expected_output dependencies context async_execution
        task_id status result error).

End Task.

Abbreviation store := (list Task.t).

(** A store is closed when every dependency is an object of the store
    (Python references never dangle). *)
Definition store_closed (h : store) : Prop :=
  ∀ r d, r < length h → d ∈ Task.dependencies (h !!! r) → d < length h.

(** ** core/crew.py *)

Inductive ProcessType := SEQUENTIAL | PARALLEL | HIERARCHICAL.

#[export] Instance ProcessType_eq_dec : EqDecision ProcessType.
Proof. solve_decision. Defined.

Definition ProcessType_value (p : ProcessType) : string :=
  match p with
  | SEQUENTIAL => "sequential"
  | PARALLEL => "parallel"
  | HIERARCHICAL => "hierarchical"
  end.

Definition ProcessType_of_value (v : string) : outcome ProcessType :=
  if String.eqb v "sequential" then Ok SEQUENTIAL
  else if String.eqb v "parallel" then Ok PARALLEL
  else if String.eqb v "hierarchical" then Ok HIERARCHICAL
  else Raise (ValueError (v +:+ " is not a valid ProcessType")).

Module Crew.

Record t := mk {
  agents : list Agent.t;
  tasks : list ref;
  process : ProcessType;
  memory : bool;
  cache : bool;
  verbose : bool;
  checkpoint_enabled : bool;
  max_rpm : option Z;
  crew_id : string
}.

Definition with_crew_id (id : string) (self : t) : t :=
  mk (agents self) (tasks self) (process self) (memory self) (cache self)
     (verbose self) (checkpoint_enabled self) (max_rpm self) id.

(** The result of a [has_cycle] call: the returned boolean and the two
    sets, which the call mutates in place. *)
Definition dfs_state : Type := bool * gset string * gset string.

(** The [for dep in task.dependencies] loop of [has_cycle]; [call] is the
    recursive call.  The boolean is [true] when the loop left through one of
    its [return True]. *)
Fixpoint has_cycle_deps
    (call : ref → gset string → gset string → option dfs_state)
    (h : store) (deps : list ref) (visited rec_stack : gset string)
    : option dfs_state :=
  match deps with
  | [] => Some (false, visited, rec_stack)
  | dep :: rest =>
      if decide (Task.task_id (h !!! dep) ∉ visited) then
        match call dep visited rec_stack with
        | None => None
        | Some (true, visited, rec_stack) => Some (true, visited, rec_stack)
        | Some (false, visited, rec_stack) =>
            has_cycle_deps call h rest visited rec_stack
        end
      else if decide (Task.task_id (h !!! dep) ∈ rec_stack) then
        Some (true, visited, rec_stack)
      else has_cycle_deps call h rest visited rec_stack
  end.

(** The inner function [has_cycle] of [_validate_task_dependencies].  The
    final [rec_stack.remove] cannot raise: the id was added on entry and the
    calls in between only remove ids that were not yet visited. *)
Fixpoint has_cycle (fuel : nat) (h : store) (task : ref)
    (visited rec_stack : gset string) : option dfs_state :=
  match fuel with
  | 0 => None
  | S fuel =>
      let visited := visited ∪ {[Task.task_id (h !!! task)]} in
      let rec_stack := rec_stack ∪ {[Task.task_id (h !!! task)]} in
      match has_cycle_deps (has_cycle fuel h) h
              (Task.dependencies (h !!! task)) visited rec_stack with
      | None => None
      | Some (true, visited, rec_stack) => Some (true, visited, rec_stack)
      | Some (false, visited, rec_stack) =>
          Some (false, visited, rec_stack ∖ {[Task.task_id (h !!! task)]})
      end
  end.

(** The [for task in self.tasks] loop of [_validate_task_dependencies]. *)
Fixpoint validate_tasks (fuel : nat) (h : store) (ts : list ref)
    (visited : gset string) : option (outcome unit) :=
  match ts with
  | [] => Some (Ok ())
  | task :: rest =>
      if decide (Task.task_id (h !!! task) ∉ visited) then
        match has_cycle fuel h task visited ∅ with
        | None => None
        | Some (true, _, _) =>
            Some (Raise (ValueError "Circular dependency detected in tasks"))
        | Some (false, visited, _) => validate_tasks fuel h rest visited
        end
      else validate_tasks fuel h rest visited
  end.

(** [Crew._validate_task_dependencies] ([task_map] is built but not used). *)
Definition _validate_task_dependencies (fuel : nat) (h : store) (self : t)
    : option (outcome unit) :=
  validate_tasks fuel h (tasks self) ∅.

(** The agent-membership loop of [__post_init__]. *)
Fixpoint check_task_agents (h : store) (crew_agent_ids : gset string)
    (ts : list ref) : outcome unit :=
  match ts with
  | [] => Ok ()
  | task :: rest =>
      if decide (Agent.agent_id (Task.agent (h !!! task)) ∉ crew_agent_ids) then
        Raise (ValueError ("Task agent '" +:+ Agent.role (Task.agent (h !!! task))
                           +:+ "' not in crew agents"))
      else check_task_agents h crew_agent_ids rest
  end.

(** [Crew.__post_init__]: runs at the end of every construction. *)
Definition __post_init__ (fuel : nat) (h : store) (self : t)
    : option (outcome unit) :=
  match agents self with
  | [] => Some (Raise (ValueError "Crew must have at least one agent"))
  | _ =>
    match tasks self with
    | [] => Some (Raise (ValueError "Crew must have at least one task"))
    | _ =>
      let crew_agent_ids : gset string :=
        list_to_set (Agent.agent_id <$> agents self) in
      match check_task_agents h crew_agent_ids (tasks self) with
      | Raise e => Some (Raise e)
      | Ok _ => _validate_task_dependencies fuel h self
      end
    end
  end.

Definition get_ready_tasks (h : store) (self : t) : list ref :=
  filter (λ task, Task.status (h !!! task) = PENDING ∧ Task.is_ready h task)
         (tasks self).

Definition is_complete (h : store) (self : t) : bool :=
  forallb (λ task, bool_decide (Task.status (h !!! task) ∈ [COMPLETED; SKIPPED]))
          (tasks self).

Definition has_failed_tasks (h : store) (self : t) : bool :=
  existsb (λ task, bool_decide (Task.status (h !!! task) = FAILED))
          (tasks self).

(** [Crew.get_task_by_id]: the [for] loop returns at the first task of the
    list that carries the id, [None] when it ends. *)
Definition get_task_by_id (h : store) (self : t) (task_id : string)
    : option ref :=
  List.find (λ task, String.eqb (Task.task_id (h !!! task)) task_id)
            (tasks self).

(** [Crew.get_agent_by_id] *)
Definition get_agent_by_id (self : t) (agent_id : string) : option Agent.t :=
  List.find (λ agent, String.eqb (Agent.agent_id agent) agent_id)
            (agents self).

Definition to_dict (h : store) (self : t) : PyDict.t pyval :=
  [ ("crew_id", VStr (crew_id self));
    ("agents", VList ((λ agent, VDict (Agent.to_dict agent)) <$> agents self));
    ("tasks", VList ((λ task, VDict (Task.to_dict h task)) <$> tasks self));
    ("process", VStr (ProcessType_value (process self)));
    ("memory", VBool (memory self));
    ("cache", VBool (cache self));
    ("verbose", VBool (verbose self));
    ("checkpoint_enabled", VBool (checkpoint_enabled self));
    ("max_rpm", of_opt_int (max_rpm self)) ].

End Crew.

(** ** Calls that mutate a state and may raise *)

Definition M (St A : Type) : Type := St → outcome A * St.

#[export] Instance M_ret {St} : MRet (M St) := λ A a s, (Ok a, s).
#[export] Instance M_bind {St} : MBind (M St) := λ A B f m s,
  match m s with
  | (Ok a, s') => f a s'
  | (Raise e, s') => (Raise e, s')
  end.

Definition raise {St A} (e : exn) : M St A := λ s, (Raise e, s).
Definition gets {St A} (f : St → A) : M St A := λ s, (Ok (f s), s).
Definition modify {St} (f : St → St) : M St unit := λ s, (Ok (), f s).

(** [try: body except Exception as e: handler(e)]; what [body] did to the
    state before it raised stays done. *)
Definition try_except {St A} (body : M St A) (handler : exn → M St A)
    : M St A := λ s,
  match body s with
  | (Ok a, s') => (Ok a, s')
  | (Raise e, s') => handler e s'
  end.

(** [for x in l: body(x)], where the body may [break]. *)
Inductive flow := Next | Break.

Fixpoint for_in {St A} (l : list A) (body : A → M St flow) : M St unit :=
  match l with
  | [] => mret ()
  | x :: rest =>
      λ s, match body x s with
           | (Ok Next, s') => for_in rest body s'
           | (Ok Break, s') => (Ok (), s')
           | (Raise e, s') => (Raise e, s')
           end
  end.

(** ** memory/scratchpad.py *)

Module Scratchpad.
Section WithWorld.
Context {W : Type}.

(** The [MemoryBackend] protocol: an external store reached through the
    world; each call may raise.  An object implementing it is truthy. *)
Record MemoryBackend := {
  backend_set : string → pyval → M W unit;
  backend_get : string → pyval → M W pyval;
  backend_delete : string → M W bool;
  backend_get_all : M W (PyDict.t pyval);
  backend_keys : M W (list string);
  backend_clear : M W unit
}.

Record t := mk {
  _backend : option MemoryBackend;
  _data : PyDict.t pyval
}.

(** [Scratchpad.__init__] *)
Definition __init__ (backend : option MemoryBackend) : t := mk backend [].

(** A backend call made from a method: the scratchpad itself is unchanged. *)
Definition on_backend {A} (call : M W A) : M (t * W) A := λ '(self, w),
  let '(r, w') := call w in (r, (self, w')).
Definition set_data (d : PyDict.t pyval) : M (t * W) unit :=
  modify (λ '(self, w), (mk (_backend self) d, w)).
Definition self_ : M (t * W) t := gets fst.

Definition set (key : string) (value : pyval) : M (t * W) unit :=
  self ← self_;
  match _backend self with
  | Some b => on_backend (backend_set b key value)
  | None => set_data (PyDict.set key value (_data self))
  end.

Definition get (key : string) (dflt : pyval) : M (t * W) pyval :=
  self ← self_;
  match _backend self with
  | Some b => on_backend (backend_get b key dflt)
  | None => mret (PyDict.get_default key dflt (_data self))
  end.

Definition delete (key : string) : M (t * W) bool :=
  self ← self_;
  match _backend self with
  | Some b => on_backend (backend_delete b key)
  | None =>
      if PyDict.contains key (_data self) then
        set_data (PyDict.del key (_data self));; mret true
      else mret false
  end.

Definition clear : M (t * W) unit :=
  self ← self_;
  match _backend self with
  | Some b => on_backend (backend_clear b)
  | None => set_data []
  end.

Definition get_all : M (t * W) (PyDict.t pyval) :=
  self ← self_;
  match _backend self with
  | Some b => on_backend (backend_get_all b)
  | None => mret (_data self)
  end.

Definition keys : M (t * W) (list string) :=
  self ← self_;
  match _backend self with
  | Some b => on_backend (backend_keys b)
  | None => mret (PyDict.keys (_data self))
  end.

Definition has_key (key : string) : M (t * W) bool :=
  self ← self_;
  match _backend self with
  | Some b =>
      value ← on_backend (backend_get b key VNone);
      mret (match value with VNone => false | _ => true end)
  | None => mret (PyDict.contains key (_data self))
  end.

Definition to_dict (self : t) : PyDict.t pyval := _data self.
Definition from_dict (data : PyDict.t pyval) : t := mk None data.
End WithWorld.
Arguments MemoryBackend : clear implicits.
Arguments t : clear implicits.

(** The operations of the memory-store contract, as requests. *)
Inductive op :=
  | OpSet (key : string) (value : pyval)
  | OpGet (key : string) (dflt : pyval)
  | OpDelete (key : string)
  | OpGetAll
  | OpKeys
  | OpHasKey (key : string)
  | OpClear.

(** Run one request and drop its result, keeping the state. *)
Definition run_op {W} (o : op) (s : t W * W) : t W * W :=
  match o with
  | OpSet k v => (set k v s).2
  | OpGet k d => (get k d s).2
  | OpDelete k => (delete k s).2
  | OpGetAll => (get_all s).2
  | OpKeys => (keys s).2
  | OpHasKey k => (has_key k s).2
  | OpClear => (clear s).2
  end.

Definition run_ops {W} (os : list op) (s : t W * W) : t W * W :=
  foldl (λ s o, run_op o s) s os.

(** A request that writes to the key [k]: a [set] or a [delete] of [k],
    or a [clear]. *)
Definition touches (k : string) (o : op) : bool :=
  match o with
  | OpSet k' _ | OpDelete k' => String.eqb k k'
  | OpClear => true
  | _ => false
  end.

End Scratchpad.

(** Truthiness of a value *)
Definition truthy (v : pyval) : bool :=
  match v with
  | VNone => false
  | VBool b => b
  | VInt z => negb (Z.eqb z 0)
  | VFloat f => negb (PrimFloat.eqb f 0)
  | VStr s => truthy_str s
  | VList l => match l with [] => false | _ => true end
  | VDict d => truthy_dict d
  end.

(** [TaskResult] (core/task.py) and [CrewOutput] (core/crew.py) *)

Module TaskResult.
Record t := mk {
  task_id : string;
  success : bool;
  output : string;
  error : string;
  metadata : PyDict.t pyval
}.

Definition to_dict (self : t) : PyDict.t pyval :=
  [ ("task_id", VStr (task_id self));
    ("success", VBool (success self));
    ("output", VStr (output self));
    ("error", VStr (error self));
    ("metadata", VDict (metadata self)) ].
End TaskResult.

Module CrewOutput.
Record t := mk {
  tasks_output : list (PyDict.t pyval);
  final_output : string;
  success : bool;
  metadata : PyDict.t pyval
}.
End CrewOutput.

(** ** orchestration/engine.py *)

Module WorkflowEngine.
Section Engine.
Context {W : Type}.
(** [LlamaStackAdapter.execute_turn(agent, prompt)]: the external turn
    executor. *)
Variable execute_turn : Agent.t → string → M W string.
(** [time.time()] *)
Variable time_time : W → float * W.
(** [str()] inside the f-strings *)
Variable py_str : pyval → string.

(** The engine object: its configuration ... *)
Record t := mk {
  crew : Crew.t;
  verbose : bool;
  checkpoint_enabled : bool
}.

(** ... and what a run mutates: the [Task] objects, the engine's
    scratchpad (absent when the crew has no memory) and the world. *)
Record machine := Machine {
  heap : store;
  scratchpad : option (Scratchpad.t W);
  world : W
}.

(** [WorkflowEngine.__init__] *)
Definition __init__ (crew : Crew.t) (verbose checkpoint_enabled : bool)
    (memory_backend : option (Scratchpad.MemoryBackend W))
    (h : store) (w : W) : t * machine :=
  (mk crew verbose checkpoint_enabled,
   Machine h
     (if Crew.memory crew then Some (Scratchpad.__init__ memory_backend)
      else None)
     w).

Definition on_heap (f : store → store) : M machine unit :=
  modify (λ m, Machine (f (heap m)) (scratchpad m) (world m)).
Definition on_world {A} (call : M W A) : M machine A := λ m,
  let '(r, w') := call (world m) in
  (r, Machine (heap m) (scratchpad m) w').
Definition on_scratchpad {A} (pad : Scratchpad.t W)
    (call : M (Scratchpad.t W * W) A) : M machine A := λ m,
  let '(r, (pad', w')) := call (pad, world m) in
  (r, Machine (heap m) (Some pad') w').

(** Lines 157-166 of [_execute_task]: the prompt, with the shared memory
    appended when the engine has a scratchpad and the agent takes part. *)
Definition build_prompt (task : ref) : M machine string :=
  prompt ← gets (λ m, Task.get_prompt py_str (heap m) task);
  pad ← gets scratchpad;
  agent ← gets (λ m, Task.agent (heap m !!! task));
  match pad with
  | Some pad =>
      if Agent.memory_enabled agent then
        scratchpad_data ← on_scratchpad pad Scratchpad.get_all;
        if truthy_dict scratchpad_data then
          mret (foldl (λ prompt kv,
                         prompt +:+ "- " +:+ kv.1 +:+ ": " +:+ py_str kv.2 +:+ nl)
                      (prompt +:+ nl +:+ nl +:+ "# Shared Memory" +:+ nl)
                      scratchpad_data)
        else mret prompt
      else mret prompt
  | None => mret prompt
  end.

(** [WorkflowEngine._execute_task] *)
Definition _execute_task (self : t) (task : ref) : M machine TaskResult.t :=
  on_heap (Task.update Task.mark_in_progress task);;
  task_id ← gets (λ m, Task.task_id (heap m !!! task));
  agent ← gets (λ m, Task.agent (heap m !!! task));
  try_except
    (prompt ← build_prompt task;
     start_time ← on_world (λ w, let '(now, w') := time_time w in (Ok now, w'));
     output ← on_world (execute_turn agent prompt);
     end_time ← on_world (λ w, let '(now, w') := time_time w in (Ok now, w'));
     let execution_time := PrimFloat.sub end_time start_time in
     on_heap (Task.update (Task.mark_completed output) task);;
     pad ← gets scratchpad;
     match pad with
     | Some pad =>
         on_scratchpad pad
           (Scratchpad.set ("task_" +:+ task_id +:+ "_result") (VStr output))
     | None => mret ()
     end;;
     mret (TaskResult.mk task_id true output ""
             [ ("agent_id", VStr (Agent.agent_id agent));
               ("agent_role", VStr (Agent.role agent));
               ("execution_time", VFloat execution_time) ]))
    (λ e,
       let error_msg := exn_text e in
       on_heap (Task.update (Task.mark_failed error_msg) task);;
       mret (TaskResult.mk task_id false "" error_msg
               [ ("agent_id", VStr (Agent.agent_id agent));
                 ("agent_role", VStr (Agent.role agent)) ])).

(** [WorkflowEngine._generate_final_output] *)
Definition final_output_parts (i : nat) (task_output : PyDict.t pyval)
    : outcome (list string) :=
  success ← PyDict.item "success" task_output;
  if truthy success then
    output ← PyDict.item "output" task_output;
    Ok [nl +:+ "## Task " +:+ pretty i; "Output: " +:+ py_str output]
  else
    error ← PyDict.item "error" task_output;
    Ok [nl +:+ "## Task " +:+ pretty i +:+ " (FAILED)";
        "Error: " +:+ py_str error].

Fixpoint final_output_from (i : nat) (tasks_output : list (PyDict.t pyval))
    : outcome (list string) :=
  match tasks_output with
  | [] => Ok []
  | task_output :: rest =>
      parts ← final_output_parts i task_output;
      more ← final_output_from (S i) rest;
      Ok (parts ++ more)
  end.

Definition _generate_final_output (tasks_output : list (PyDict.t pyval))
    : outcome string :=
  parts ← final_output_from 1 tasks_output;
  Ok (join nl (("# Workflow Results" +:+ nl) :: parts)).

(** [WorkflowEngine._checkpoint]: a placeholder in the source. *)
Definition _checkpoint (self : t) : M machine unit := mret ().

(** The local variables [tasks_output] and [completed_tasks] of
    [_execute_sequential], next to the machine. *)
Definition frame : Type := (list (PyDict.t pyval) * nat) * machine.

Definition lift {A} (call : M machine A) : M frame A := λ '(locals, m),
  let '(r, m') := call m in (r, (locals, m')).

(** The body of the [for task in ready_tasks] loop. *)
Definition for_body (self : t) (task : ref) : M frame flow :=
  result ← lift (_execute_task self task);
  modify (λ '((tasks_output, completed_tasks), m),
            ((tasks_output ++ [TaskResult.to_dict result], S completed_tasks), m));;
  (if checkpoint_enabled self then lift (_checkpoint self) else mret ());;
  mret Break.

(** One pass through the body of [while not self.crew.is_complete()]. *)
Definition while_body (self : t) : M frame flow :=
  ready_tasks ← gets (λ s : frame, Crew.get_ready_tasks (heap s.2) (crew self));
  match ready_tasks with
  | [] =>
      failed ← gets (λ s : frame, Crew.has_failed_tasks (heap s.2) (crew self));
      if failed : bool then mret Break
      else raise (RuntimeError "No ready tasks but workflow not complete")
  | _ => for_in ready_tasks (for_body self);; mret Next
  end.

(** The [while] loop; one unit of fuel per pass through the body. *)
Fixpoint while_loop (fuel : nat) (self : t) (s : frame)
    : option (outcome unit * frame) :=
  if Crew.is_complete (heap s.2) (crew self) then Some (Ok (), s)
  else
    match fuel with
    | 0 => None
    | S fuel =>
        match while_body self s with
        | (Ok Next, s') => while_loop fuel self s'
        | (Ok Break, s') => Some (Ok (), s')
        | (Raise e, s') => Some (Raise e, s')
        end
    end.

(** [WorkflowEngine._execute_sequential] *)
Definition _execute_sequential (fuel : nat) (self : t) (m : machine)
    : option (outcome CrewOutput.t * machine) :=
  let total_tasks := length (Crew.tasks (crew self)) in
  match while_loop fuel self (([], 0), m) with
  | None => None
  | Some (Raise e, (_, m')) => Some (Raise e, m')
  | Some (Ok _, ((tasks_output, completed_tasks), m')) =>
      let success := negb (Crew.has_failed_tasks (heap m') (crew self)) in
      match _generate_final_output tasks_output with
      | Raise e => Some (Raise e, m')
      | Ok final_output =>
          Some (Ok (CrewOutput.mk tasks_output final_output success
                      [ ("process", VStr (ProcessType_value (Crew.process (crew self))));
                        ("total_tasks", VInt (Z.of_nat total_tasks));
                        ("completed_tasks", VInt (Z.of_nat completed_tasks)) ]),
                m')
      end
  end.

(** The two other strategies fall back on the sequential one. *)
Definition _execute_parallel := _execute_sequential.
Definition _execute_hierarchical := _execute_sequential.

(** [WorkflowEngine.execute] *)
Definition store_inputs (inputs : PyDict.t pyval) : M machine unit :=
  pad ← gets scratchpad;
  match pad with
  | Some _ =>
      for_in inputs (λ '(key, value),
        pad ← gets scratchpad;
        match pad with
        | Some pad => on_scratchpad pad (Scratchpad.set key value)
        | None => mret ()
        end;;
        mret Next)
  | None => mret ()
  end.

Definition execute (fuel : nat) (self : t) (inputs : PyDict.t pyval)
    (m : machine) : option (outcome CrewOutput.t * machine) :=
  match store_inputs inputs m with
  | (Raise e, m') => Some (Raise e, m')
  | (Ok _, m') =>
      match Crew.process (crew self) with
      | SEQUENTIAL => _execute_sequential fuel self m'
      | PARALLEL => _execute_parallel fuel self m'
      | HIERARCHICAL => _execute_hierarchical fuel self m'
      end
  end.
End Engine.
End WorkflowEngine.

(** ** memory/checkpoint.py *)

Module CheckpointManager.

(** The file system: the JSON document stored under each path.  [json.dump]
    followed by [json.load] gives back the document. *)
Abbreviation FileSystem := (gmap string pyval).

Record t := mk { checkpoint_path : string }.

(** [CheckpointManager.save] *)
Definition save (self : t) (h : store) (crew : Crew.t) (fs : FileSystem)
    : FileSystem :=
  let checkpoint_data :=
    [ ("crew", VDict (Crew.to_dict h crew));
      ("agents",
         VList ((λ agent, VDict (Agent.to_dict agent)) <$> Crew.agents crew));
      ("tasks",
         VList ((λ task, VDict (Task.to_dict h task)) <$> Crew.tasks crew)) ] in
  <[checkpoint_path self := VDict checkpoint_data]> fs.

(** [CheckpointManager.exists] *)
Definition exists_ (self : t) (fs : FileSystem) : bool :=
  bool_decide (is_Some (fs !! checkpoint_path self)).

(** [CheckpointManager.delete]: unlinks the file when it is there. *)
Definition delete (self : t) (fs : FileSystem) : FileSystem :=
  if exists_ self fs then base.delete (checkpoint_path self) fs else fs.

Section Load.
(** The successive values of [uuid4()]. *)
Variable uuid4 : nat → string.

(** "Reconstruct agents" *)
Fixpoint load_agents (n : nat) (agents_data : list pyval)
    (agents : list Agent.t) (agent_map : PyDict.t Agent.t)
    : outcome (list Agent.t * PyDict.t Agent.t) :=
  match agents_data with
  | [] => Ok (agents, agent_map)
  | agent_data :: rest =>
      agent ← as_dict agent_data ≫= Agent.from_dict (uuid4 n);
      load_agents (S n) rest (agents ++ [agent])
        (PyDict.set (Agent.agent_id agent) agent agent_map)
  end.

(** "Reconstruct tasks": each new object gets the next reference of the
    new store, with no dependencies yet. *)
Fixpoint load_tasks (n : nat) (tasks_data : list pyval)
    (agent_map : PyDict.t Agent.t) (tasks : store) (task_map : PyDict.t ref)
    : outcome (store * PyDict.t ref) :=
  match tasks_data with
  | [] => Ok (tasks, task_map)
  | task_data :: rest =>
      task_data ← as_dict task_data;
      agent_id ← PyDict.item "agent_id" task_data ≫= as_str;
      agent ← PyDict.item agent_id agent_map;
      task ← Task.from_dict (uuid4 n) task_data agent [];
      load_tasks (S n) rest agent_map (tasks ++ [task])
        (PyDict.set (Task.task_id task) (length tasks) task_map)
  end.

(** "Second pass: set task dependencies"; [task] is the position in
    [tasks], which [zip] pairs with the same position of the document. *)
Fixpoint wire_dependencies (tasks_data : list pyval) (task : ref)
    (task_map : PyDict.t ref) (tasks : store) : outcome store :=
  match tasks_data with
  | [] => Ok tasks
  | task_data :: rest =>
      if decide (task < length tasks) then
        task_data ← as_dict task_data;
        dep_ids ← PyDict.item "dependencies" task_data ≫= as_str_list;
        deps ← mapO (λ dep_id, PyDict.item dep_id task_map) dep_ids;
        wire_dependencies rest (S task) task_map
          (Task.update (Task.with_dependencies deps) task tasks)
      else Ok tasks
  end.

(** The arguments that [load] passes to the [Crew] constructor; the
    constructor draws a [crew_id] of its own. *)
Definition load_crew_arguments (crew_data : PyDict.t pyval)
    (agents : list Agent.t) (tasks : list ref) (uuid : string)
    : outcome Crew.t :=
  process ← (PyDict.item "process" crew_data ≫= as_str)
              ≫= ProcessType_of_value;
  memory ← PyDict.item "memory" crew_data ≫= as_bool;
  cache ← as_bool (PyDict.get_default "cache" (VBool false) crew_data);
  verbose ← as_bool (PyDict.get_default "verbose" (VBool true) crew_data);
  checkpoint_enabled ←
    as_bool (PyDict.get_default "checkpoint_enabled" (VBool false) crew_data);
  max_rpm ← as_opt_int (PyDict.get_default "max_rpm" VNone crew_data);
  Ok (Crew.mk agents tasks process memory cache verbose checkpoint_enabled
        max_rpm uuid).

(** The part of [load] before the [Crew] constructor runs: the new
    store, the ["crew"] record and the constructor's arguments. *)
Definition load_objects (document : pyval)
    : outcome (store * PyDict.t pyval * Crew.t) :=
  checkpoint_data ← as_dict document;
  agents_data ← PyDict.item "agents" checkpoint_data ≫= as_list;
  loaded_agents ← load_agents 0 agents_data [] [];
  tasks_data ← PyDict.item "tasks" checkpoint_data ≫= as_list;
  loaded_tasks ←
    load_tasks (length agents_data) tasks_data loaded_agents.2 [] [];
  tasks ← wire_dependencies tasks_data 0 loaded_tasks.2 loaded_tasks.1;
  crew_data ← PyDict.item "crew" checkpoint_data ≫= as_dict;
  crew ← load_crew_arguments crew_data loaded_agents.1 (seq 0 (length tasks))
           (uuid4 (length agents_data + length tasks_data));
  Ok (tasks, crew_data, crew).

(** [CheckpointManager.load]: the restored crew and the store of its
    [Task] objects. *)
Definition load (fuel : nat) (self : t) (fs : FileSystem)
    : option (outcome (store * Crew.t)) :=
  match fs !! checkpoint_path self with
  | None =>
      Some (Raise (FileNotFoundError
                     ("Checkpoint not found: " +:+ checkpoint_path self)))
  | Some document =>
      match load_objects document with
      | Raise e => Some (Raise e)
      | Ok (tasks, crew_data, crew) =>
          match Crew.__post_init__ fuel tasks crew with
          | None => None
          | Some (Raise e) => Some (Raise e)
          | Some (Ok _) =>
              Some (crew_id ← PyDict.item "crew_id" crew_data ≫= as_str;
                    Ok (tasks, Crew.with_crew_id crew_id crew))
          end
      end
  end.
End Load.

End CheckpointManager.

(** ** parser/yaml_parser.py: the agent part *)

Module YAMLWorkflowParser.
Section Parser.
Variable py_str : pyval → string.

(** "Parse llm_config": the mapping that the parser hands to the [Agent]
    constructor. *)
Definition parse_llm_config (config : PyDict.t pyval)
    : outcome (PyDict.t pyval) :=
  llm_config ←
    (if PyDict.contains "llm_config" config then
       PyDict.item "llm_config" config ≫= as_dict
     else if PyDict.contains "model" config then
       model ← PyDict.item "model" config;
       Ok (PyDict.set "model" model [])
     else Ok []);
  if PyDict.contains "temperature" config then
    temperature ← PyDict.item "temperature" config;
    Ok (PyDict.set "temperature" temperature llm_config)
  else Ok llm_config.

(** [YAMLWorkflowParser._parse_single_agent]; [uuid] is the [agent_id]
    that the constructor draws. *)
Definition _parse_single_agent (uuid : string) (config : PyDict.t pyval)
    : outcome Agent.t :=
  if negb (PyDict.contains "role" config) then
    Raise (ValueError ("Agent missing 'role': " +:+ py_str (VDict config)))
  else if negb (PyDict.contains "goal" config) then
    Raise (ValueError ("Agent missing 'goal': " +:+ py_str (VDict config)))
  else
    llm_config ← parse_llm_config config;
    role ← PyDict.item "role" config ≫= as_str;
    goal ← PyDict.item "goal" config ≫= as_str;
    backstory ← as_str (PyDict.get_default "backstory" (VStr "") config);
    tools ← as_str_list (PyDict.get_default "tools" (VList []) config);
    verbose ← as_bool (PyDict.get_default "verbose" (VBool true) config);
    max_iterations ←
      as_int (PyDict.get_default "max_iterations" (VInt 15) config);
    allow_delegation ←
      as_bool (PyDict.get_default "allow_delegation" (VBool false) config);
    memory_enabled ←
      as_bool (PyDict.get_default "memory_enabled" (VBool true) config);
    Agent.new role goal backstory tools llm_config uuid verbose
      max_iterations allow_delegation memory_enabled.
End Parser.

Section Workflow.
Variable py_str : pyval → string.
(** [str.lower] *)
Variable str_lower : string → string.
(** The successive values of [uuid4()]. *)
Variable uuid4 : nat → string.

(** [YAMLWorkflowParser._validate_config] *)
Definition _validate_config (config : pyval) : outcome unit :=
  match config with
  | VDict config =>
      if negb (PyDict.contains "agents" config) then
        Raise (ValueError "Configuration must contain 'agents' key")
      else if negb (PyDict.contains "tasks" config) then
        Raise (ValueError "Configuration must contain 'tasks' key")
      else
        agents ← PyDict.item "agents" config;
        if negb (truthy agents) then
          Raise (ValueError "At least one agent must be defined")
        else
          tasks ← PyDict.item "tasks" config;
          if negb (truthy tasks) then
            Raise (ValueError "At least one task must be defined")
          else Ok ()
  | _ => Raise (ValueError "Configuration must be a dictionary")
  end.

(** [self._agents_cache[agent_config["name"]] = agent].  Tasks look agents
    up by [str] names only, so an entry under a name of another hashable
    type is never read and is left out; a [list] or a [dict] is not
    hashable. *)
Definition cache_by_name (name : pyval) (agent : Agent.t)
    (_agents_cache : PyDict.t Agent.t) : outcome (PyDict.t Agent.t) :=
  match name with
  | VStr name => Ok (PyDict.set name agent _agents_cache)
  | VList _ => Raise (TypeError "unhashable type: 'list'")
  | VDict _ => Raise (TypeError "unhashable type: 'dict'")
  | _ => Ok _agents_cache
  end.

(** The [for agent_config in agents_config] loop of [_parse_agents]; the
    agent at position [n] draws [uuid4 n] as its id. *)
Fixpoint parse_agents_loop (n : nat) (agents_config : list pyval)
    (agents : list Agent.t) (_agents_cache : PyDict.t Agent.t)
    : outcome (list Agent.t * PyDict.t Agent.t) :=
  match agents_config with
  | [] => Ok (agents, _agents_cache)
  | agent_config :: rest =>
      agent_config ← as_dict agent_config;
      agent ← _parse_single_agent py_str (uuid4 n) agent_config;
      _agents_cache ←
        (if PyDict.contains "name" agent_config then
           name ← PyDict.item "name" agent_config;
           cache_by_name name agent _agents_cache
         else Ok _agents_cache);
      parse_agents_loop (S n) rest (agents ++ [agent]) _agents_cache
  end.

(** [YAMLWorkflowParser._parse_agents]: the list of agents and the cache
    that it leaves in the parser; the cache is cleared first. *)
Definition _parse_agents (agents_config : list pyval)
    : outcome (list Agent.t * PyDict.t Agent.t) :=
  parse_agents_loop 0 agents_config [] [].

(** [isinstance(v, int)]: [bool] is a subclass of [int]. *)
Definition as_index (v : pyval) : option Z :=
  match v with
  | VInt z => Some z
  | VBool b => Some (if b then 1 else 0)%Z
  | _ => None
  end.

(** The [for dep_ref in config["dependencies"]] loop of
    [_parse_single_task]; [cached] is [len(self._tasks_cache)].  The task
    objects parsed so far are the objects [0 .. cached - 1] of the store, in
    the order of the cache, so [self._tasks_cache[dep_ref]] is the reference
    [dep_ref]. *)
Fixpoint parse_dependencies (cached : nat) (dep_refs : list pyval)
    (dependencies : list ref) : outcome (list ref) :=
  match dep_refs with
  | [] => Ok dependencies
  | dep_ref :: rest =>
      match as_index dep_ref with
      | Some i =>
          if ((i <? 0) || (Z.of_nat cached <=? i))%Z then
            Raise (ValueError ("Invalid task dependency index: "
                               +:+ py_str dep_ref))
          else parse_dependencies cached rest (dependencies ++ [Z.to_nat i])
      | None =>
          Raise (ValueError ("Invalid dependency reference: "
                             +:+ py_str dep_ref))
      end
  end.

(** [YAMLWorkflowParser._parse_single_task]; [uuid] is the [task_id] that
    the constructor draws. *)
Definition _parse_single_task (uuid : string)
    (_agents_cache : PyDict.t Agent.t) (cached : nat)
    (config : PyDict.t pyval) : outcome Task.t :=
  if negb (PyDict.contains "description" config) then
    Raise (ValueError ("Task missing 'description': " +:+ py_str (VDict config)))
  else if negb (PyDict.contains "agent" config) then
    Raise (ValueError ("Task missing 'agent': " +:+ py_str (VDict config)))
  else
    agent_ref ← PyDict.item "agent" config;
    agent ←
      match agent_ref with
      | VStr name =>
          if negb (PyDict.contains name _agents_cache) then
            Raise (ValueError ("Unknown agent reference: " +:+ name))
          else PyDict.item name _agents_cache
      | VInt _ | VBool _ =>
          Raise (ValueError "Agent reference by index not supported in this parser")
      | _ =>
          Raise (ValueError ("Invalid agent reference: " +:+ py_str agent_ref))
      end;
    dependencies ←
      (if PyDict.contains "dependencies" config then
         dep_refs ← PyDict.item "dependencies" config ≫= as_list;
         parse_dependencies cached dep_refs []
       else Ok []);
    description ← PyDict.item "description" config ≫= as_str;
    expected_output ←
      as_str (PyDict.get_default "expected_output" (VStr "") config);
    context ← as_dict (PyDict.get_default "context" (VDict []) config);
    async_execution ←
      as_bool (PyDict.get_default "async_execution" (VBool false) config);
    Task.__post_init__
      (Task.mk description agent expected_output dependencies context
         async_execution uuid PENDING None None).

(** The [for task_config in tasks_config] loop of [_parse_tasks]: each new
    object gets the next reference of the store, which is also its index in
    [self._tasks_cache]; the task at position [n] of the document draws
    [uuid4 (first + n)]. *)
Fixpoint parse_tasks_loop (n : nat) (_agents_cache : PyDict.t Agent.t)
    (tasks_config : list pyval) (tasks : store) : outcome store :=
  match tasks_config with
  | [] => Ok tasks
  | task_config :: rest =>
      task_config ← as_dict task_config;
      task ← _parse_single_task (uuid4 n) _agents_cache (length tasks)
                task_config;
      parse_tasks_loop (S n) _agents_cache rest (tasks ++ [task])
  end.

(** [YAMLWorkflowParser._parse_tasks]: the store of the new task objects;
    the returned list is [0 .. length - 1].  [first] is the number of ids
    drawn before. *)
Definition _parse_tasks (first : nat) (_agents_cache : PyDict.t Agent.t)
    (tasks_config : list pyval) : outcome store :=
  parse_tasks_loop first _agents_cache tasks_config [].

(** [YAMLWorkflowParser._parse_process_type] *)
Definition _parse_process_type (process : string) : outcome ProcessType :=
  let process_lower := str_lower process in
  if String.eqb process_lower "sequential" then Ok SEQUENTIAL
  else if String.eqb process_lower "parallel" then Ok PARALLEL
  else if String.eqb process_lower "hierarchical" then Ok HIERARCHICAL
  else Raise (ValueError ("Unknown process type: " +:+ process)).

(** [YAMLWorkflowParser.parse_dict] up to the call of the [Crew]
    constructor: the store of the new tasks and the constructor's
    arguments. *)
Definition parse_objects (config : pyval) : outcome (store * Crew.t) :=
  _validate_config config;;
  config ← as_dict config;
  agents_config ← as_list (PyDict.get_default "agents" (VList []) config);
  parsed ← _parse_agents agents_config;
  tasks_config ← as_list (PyDict.get_default "tasks" (VList []) config);
  tasks ← _parse_tasks (length agents_config) parsed.2 tasks_config;
  crew_config ← as_dict (PyDict.get_default "crew" (VDict []) config);
  process ←
    as_str (PyDict.get_default "process" (VStr "sequential") crew_config)
      ≫= _parse_process_type;
  memory ← as_bool (PyDict.get_default "memory" (VBool true) crew_config);
  cache ← as_bool (PyDict.get_default "cache" (VBool false) crew_config);
  verbose ← as_bool (PyDict.get_default "verbose" (VBool true) crew_config);
  checkpoint_enabled ←
    as_bool (PyDict.get_default "checkpoint_enabled" (VBool false) crew_config);
  max_rpm ← as_opt_int (PyDict.get_default "max_rpm" VNone crew_config);
  Ok (tasks,
      Crew.mk parsed.1 (seq 0 (length tasks)) process memory cache verbose
        checkpoint_enabled max_rpm
        (uuid4 (length agents_config + length tasks_config))).

(** [YAMLWorkflowParser.parse_dict]: the crew and the store of its tasks. *)
Definition parse_dict (fuel : nat) (config : pyval)
    : option (outcome (store * Crew.t)) :=
  match parse_objects config with
  | Raise e => Some (Raise e)
  | Ok (tasks, crew) =>
      match Crew.__post_init__ fuel tasks crew with
      | None => None
      | Some (Raise e) => Some (Raise e)
      | Some (Ok _) => Some (Ok (tasks, crew))
      end
  end.
End Workflow.
End YAMLWorkflowParser.

(** * Vocabulary of the properties *)

(** The dependency relation of a store: [depends_on h d t] when the object
    [d] is in [t]'s dependency list. *)
Definition depends_on (h : store) (d t : ref) : Prop :=
  d ∈ Task.dependencies (h !!! t).

(** [reaches h t c]: [c] is [t] or a direct or transitive dependency of it. *)
Definition reaches (h : store) (t c : ref) : Prop :=
  rtc (flip (depends_on h)) t c.

(** [on_cycle h c]: following dependencies from [c] leads back to [c]
    (a self-edge is the shortest case). *)
Definition on_cycle (h : store) (c : ref) : Prop :=
  tc (flip (depends_on h)) c c.

(** The dependency relation reachable from the crew's tasks has a cycle. *)
Definition cyclic (h : store) (crew : Crew.t) : Prop :=
  ∃ t c, t ∈ Crew.tasks crew ∧ reaches h t c ∧ on_cycle h c.

(** The objects that the validation can meet. *)
Definition reachable (h : store) (crew : Crew.t) (r : ref) : Prop :=
  ∃ t, t ∈ Crew.tasks crew ∧ reaches h t r.

(** Distinct reachable objects carry distinct [task_id]s. *)
Definition distinct_task_ids (h : store) (crew : Crew.t) : Prop :=
  ∀ r1 r2, reachable h crew r1 → reachable h crew r2 →
    Task.task_id (h !!! r1) = Task.task_id (h !!! r2) → r1 = r2.

(** The crew's task list holds objects of the store. *)
Definition crew_in_store (h : store) (crew : Crew.t) : Prop :=
  ∀ t, t ∈ Crew.tasks crew → t < length h.

(** The mark-operations as requests, and a run of them on one task. *)
Inductive mark_op :=
  | MarkInProgress
  | MarkCompleted (result : string)
  | MarkFailed (error : string)
  | MarkSkipped.

Definition apply_mark (op : mark_op) (task : Task.t) : Task.t :=
  match op with
  | MarkInProgress => Task.mark_in_progress task
  | MarkCompleted result => Task.mark_completed result task
  | MarkFailed error => Task.mark_failed error task
  | MarkSkipped => Task.mark_skipped task
  end.

Definition run_marks (ops : list mark_op) (task : Task.t) : Task.t :=
  foldl (λ task op, apply_mark op task) task ops.

(** The status that a mark-operation assigns. *)
Definition mark_target (op : mark_op) : TaskStatus :=
  match op with
  | MarkInProgress => IN_PROGRESS
  | MarkCompleted _ => COMPLETED
  | MarkFailed _ => FAILED
  | MarkSkipped => SKIPPED
  end.

(** The moves of the lifecycle pending → in_progress → completed | failed,
    with skipped reachable from pending only. *)
Inductive lifecycle_move : TaskStatus → TaskStatus → Prop :=
  | move_start : lifecycle_move PENDING IN_PROGRESS
  | move_complete : lifecycle_move IN_PROGRESS COMPLETED
  | move_fail : lifecycle_move IN_PROGRESS FAILED
  | move_skip : lifecycle_move PENDING SKIPPED.

(** Every mark-operation of every run is a move of the lifecycle. *)
Definition marks_follow_lifecycle : Prop :=
  ∀ (task : Task.t) (ops : list mark_op) (op : mark_op),
    lifecycle_move (Task.status (run_marks ops task))
                   (Task.status (apply_mark op (run_marks ops task))).

(** [defaulted cfg cfg']: [cfg'] is [cfg] with the two model keys present,
    filled in with the defaults where [cfg] lacks them, and nothing else
    changed. *)
Definition defaulted (cfg cfg' : PyDict.t pyval) : Prop :=
  PyDict.contains "model" cfg' = true ∧
  PyDict.contains "temperature" cfg' = true ∧
  PyDict.get "model" cfg' =
    Some (default (VStr "llama3-70b") (PyDict.get "model" cfg)) ∧
  PyDict.get "temperature" cfg' =
    Some (default (VFloat 0.7) (PyDict.get "temperature" cfg)) ∧
  (∀ k, k ≠ "model" → k ≠ "temperature" → PyDict.get k cfg' = PyDict.get k cfg).

(** The three ways in which an [Agent] comes into being, each with the
    [llm_config] mapping that reaches the constructor. *)
Inductive constructed (py_str : pyval → string)
    : PyDict.t pyval → Agent.t → Prop :=
  | constructed_directly role goal backstory tools cfg agent_id verbose
      max_iterations allow_delegation memory_enabled agent :
      Agent.new role goal backstory tools cfg agent_id verbose max_iterations
        allow_delegation memory_enabled = Ok agent →
      constructed py_str cfg agent
  | constructed_from_dict uuid data cfg agent :
      as_dict (PyDict.get_default "llm_config" (VDict []) data) = Ok cfg →
      Agent.from_dict uuid data = Ok agent →
      constructed py_str cfg agent
  | constructed_by_parser uuid config cfg agent :
      YAMLWorkflowParser.parse_llm_config config = Ok cfg →
      YAMLWorkflowParser._parse_single_agent py_str uuid config = Ok agent →
      constructed py_str cfg agent.

(** The role recorded in an entry of [tasks_output]:
    [entry["metadata"]["agent_role"]]. *)
Definition entry_agent_role (entry : PyDict.t pyval) : option pyval :=
  match PyDict.get "metadata" entry with
  | Some (VDict metadata) => PyDict.get "agent_role" metadata
  | _ => None
  end.

(** [entry["task_id"]] *)
Definition entry_task_id (entry : PyDict.t pyval) : option pyval :=
  PyDict.get "task_id" entry.

(** The turn executor answers every call. *)
Definition executor_succeeds {W} (execute_turn : Agent.t → string → M W string)
    : Prop :=
  ∀ agent prompt w, ∃ output w', execute_turn agent prompt w = (Ok output, w').

(** The scratchpad is the in-process one, or its backend answers every
    [get_all] and [set]. *)
Definition memory_reliable {W} (pad : option (Scratchpad.t W)) : Prop :=
  ∀ p b, pad = Some p → Scratchpad._backend p = Some b →
    (∀ w, ∃ data w', Scratchpad.backend_get_all b w = (Ok data, w')) ∧
    (∀ key value w, ∃ w', Scratchpad.backend_set b key value w = (Ok (), w')).

(** A pending task of the crew is blocked when one of its dependencies has
    failed. *)
Definition blocked_by_failure (h : store) (task : ref) : Prop :=
  ∃ dep, dep ∈ Task.dependencies (h !!! task) ∧ Task.status (h !!! dep) = FAILED.

(** ... and the failed dependency is itself one of the crew's tasks. *)
Definition blocked_by_crew_failure (h : store) (crew : Crew.t) (task : ref)
    : Prop :=
  ∃ dep, dep ∈ Task.dependencies (h !!! task) ∧
         Task.status (h !!! dep) = FAILED ∧ dep ∈ Crew.tasks crew.

(** What a mark-operation leaves alone. *)
Definition keeps_identity (g : Task.t → Task.t) : Prop :=
  ∀ t, Task.dependencies (g t) = Task.dependencies t ∧
       Task.task_id (g t) = Task.task_id t ∧
       Task.agent (g t) = Task.agent t.

(** Vocabulary of the depth-first search.  [visited] and [rec_stack] are
    the two sets of [has_cycle]; [dom] is the set of objects it can meet. *)

(** Every object that the search has finished (visited, no longer on the
    stack) starts no infinite chain of dependencies. *)
Definition finished_safe (h : store) (dom : ref → Prop)
    (visited rec_stack : gset string) : Prop :=
  ∀ r, dom r → Task.task_id (h !!! r) ∈ visited →
       Task.task_id (h !!! r) ∉ rec_stack → Acc (depends_on h) r.

(** Every object on the stack leads to the task [t] being entered. *)
Definition stack_leads_to (h : store) (dom : ref → Prop)
    (rec_stack : gset string) (t : ref) : Prop :=
  ∀ g, dom g → Task.task_id (h !!! g) ∈ rec_stack →
       tc (flip (depends_on h)) g t.

(** The number of objects of the store whose id is not yet visited. *)
Definition unvisited (h : store) (visited : gset string) : nat :=
  length (filter (λ r, Task.task_id (h !!! r) ∉ visited) (seq 0 (length h))).

(** Executable forms of the store conditions, for concrete stores. *)
Definition store_closedb (h : store) : bool :=
  forallb (λ task, forallb (λ d, d <? length h) (Task.dependencies task)) h.

Definition all_ids_distinct (h : store) : Prop :=
  NoDup (Task.task_id <$> h).

(** The crew's tasks have agents of the crew. *)
Definition agents_in_crew (h : store) (crew : Crew.t) : Prop :=
  ∀ t, t ∈ Crew.tasks crew →
    Agent.agent_id (Task.agent (h !!! t)) ∈ Agent.agent_id <$> Crew.agents crew.

(** What the validation of the dependency graph is to achieve: acceptance
    of the acyclic crews, the circular-dependency error for the others. *)
Definition decides_cycles (fuel : nat) (h : store) (crew : Crew.t) : Prop :=
  (¬ cyclic h crew → Crew.__post_init__ fuel h crew = Some (Ok ())) ∧
  (cyclic h crew →
     Crew.__post_init__ fuel h crew =
       Some (Raise (ValueError "Circular dependency detected in tasks"))).

(** Vocabulary of the checkpoint round trip. *)

(** An agent as the constructor leaves it: role and goal not empty. *)
Definition valid_agent (a : Agent.t) : Prop :=
  Agent.role a ≠ "" ∧ Agent.goal a ≠ "".

(** The agent that [Agent.from_dict] rebuilds from [a]'s record. *)
Definition restored_agent (a : Agent.t) : Agent.t :=
  Agent.with_llm_config (Agent.default_llm_config (Agent.llm_config a)) a.

(** The task that [Task.from_dict] rebuilds from [task]'s record, given the
    agent and the dependencies. *)
Definition restored_task (agent : Agent.t) (deps : list ref) (task : Task.t)
    : Task.t :=
  Task.mk (Task.description task) agent (Task.expected_output task) deps
    (Task.context task) (Task.async_execution task) (Task.task_id task)
    (Task.status task) (Task.result task) (Task.error task).

(** The crew's tasks have distinct ids, and depend on tasks of the crew
    only. *)
Definition crew_ids_distinct (h : store) (crew : Crew.t) : Prop :=
  NoDup ((λ t, Task.task_id (h !!! t)) <$> Crew.tasks crew).

Definition dependencies_in_crew (h : store) (crew : Crew.t) : Prop :=
  ∀ t d, t ∈ Crew.tasks crew → d ∈ Task.dependencies (h !!! t) →
         d ∈ Crew.tasks crew.

(** The ids of the dependencies of a task: its edges, as ids. *)
Definition dependency_ids (h : store) (t : ref) : list string :=
  (λ d, Task.task_id (h !!! d)) <$> Task.dependencies (h !!! t).

(** The maps that [load] builds from the agents and from the task ids, and
    what it reads back from them. *)
Definition agent_map_of (agents : list Agent.t) (m : PyDict.t Agent.t)
    : PyDict.t Agent.t :=
  foldl (λ m a, PyDict.set (Agent.agent_id a) a m) m agents.

Fixpoint task_map_of (ids : list string) (start : nat) (m : PyDict.t ref)
    : PyDict.t ref :=
  match ids with
  | [] => m
  | id :: rest => task_map_of rest (S start) (PyDict.set id start m)
  end.

Definition agent_of (h : store) (agent_map : PyDict.t Agent.t) (t : ref)
    : Agent.t :=
  default inhabitant
    (PyDict.get (Agent.agent_id (Task.agent (h !!! t))) agent_map).

Definition resolve (task_map : PyDict.t ref) (ids : list string) : list ref :=
  (λ id, default 0 (PyDict.get id task_map)) <$> ids.

(** The records that [save] writes. *)
Definition agent_records (agents : list Agent.t) : list pyval :=
  (λ agent, VDict (Agent.to_dict agent)) <$> agents.
Definition task_records (h : store) (ts : list ref) : list pyval :=
  (λ task, VDict (Task.to_dict h task)) <$> ts.

(** The store that [load] rebuilds from the records of the tasks [ts]. *)
Definition restored_store (h : store) (agent_map : PyDict.t Agent.t)
    (task_map : PyDict.t ref) (ts : list ref) : store :=
  (λ t, restored_task (agent_of h agent_map t)
          (resolve task_map (dependency_ids h t)) (h !!! t)) <$> ts.

(** * Concrete crews *)

Module Examples.

Definition planner : Agent.t :=
  Agent.mk "planner" "Create detailed plans" "" []
    [("model", VStr "llama3-70b"); ("temperature", VFloat 0.7)]
    "agent-planner" true 15 false true.

Definition writer : Agent.t :=
  Agent.mk "writer" "Write the content" "" []
    [("model", VStr "llama3-70b"); ("temperature", VFloat 0.7)]
    "agent-writer" true 15 false true.

Definition task (id : string) (agent : Agent.t) (deps : list ref)
    (status : TaskStatus) : Task.t :=
  Task.mk ("Do " +:+ id) agent "" deps [] false id status None None.

Definition crew_of (tasks : list ref) : Crew.t :=
  Crew.mk [planner; writer] tasks SEQUENTIAL true false false false None
    "crew-1".

(** A diamond: D depends on B and C, which both depend on A. *)
Definition diamond_store : store :=
  [ task "A" planner [] PENDING;
    task "B" writer [0] PENDING;
    task "C" writer [0] PENDING;
    task "D" planner [1; 2] PENDING ].
Definition diamond_crew : Crew.t := crew_of [3; 1; 2; 0].

(** Two task objects with the same id, the first depending on the second:
    no cycle. *)
Definition twin_store : store :=
  [ task "x" planner [1] PENDING; task "x" writer [] PENDING ].
Definition twin_crew : Crew.t := crew_of [0; 1].

(** Three tasks, two of them with the same id; no cycle either. *)
Definition triple_store : store :=
  [ task "y" planner [1] PENDING;
    task "x" writer [] PENDING;
    task "x" writer [0] PENDING ].
Definition triple_crew : Crew.t := crew_of [0; 1; 2].

(** A failed task and a task that depends on it, both in the crew. *)
Definition blocked_store : store :=
  [ task "t1" planner [] FAILED; task "t2" writer [0] PENDING ].
Definition blocked_crew : Crew.t := crew_of [0; 1].

(** The same, but the failed task is not in the crew's task list. *)
Definition outsider_store : store :=
  [ task "t2" writer [1] PENDING; task "t1" planner [] FAILED ].
Definition outsider_crew : Crew.t := crew_of [0].

(** A task that depends on a pending task outside the crew's list. *)
Definition dangling_store : store :=
  [ task "t2" writer [1] PENDING; task "t1" planner [] PENDING ].
Definition dangling_crew : Crew.t := crew_of [0].

(** Two independent tasks. *)
Definition independent_store : store :=
  [ task "t1" planner [] PENDING; task "t2" writer [] PENDING ].
Definition independent_crew : Crew.t := crew_of [0; 1].

(** One task, already completed by an earlier run. *)
Definition rerun_store : store := [ task "t1" planner [] COMPLETED ].
Definition rerun_crew : Crew.t := crew_of [0].

(** One task, listed twice. *)
Definition repeated_store : store := [ task "t1" planner [] PENDING ].
Definition repeated_crew : Crew.t := crew_of [0; 0].

(** The world of the examples has no state. *)
Definition answers : Agent.t → string → M () string :=
  λ agent prompt w, (Ok ("done by " +:+ Agent.role agent), w).
Definition refuses : Agent.t → string → M () string :=
  λ agent prompt w, (Raise (Exn "ConnectionError" "backend unreachable"), w).
Definition clock : () → float * () := λ w, (0%float, w).
Definition show : pyval → string :=
  λ v, match v with VStr s => s | _ => "" end.

(** A memory backend whose [set] fails. *)
Definition broken_backend : Scratchpad.MemoryBackend () :=
  {| Scratchpad.backend_set := λ _ _ w, (Raise (Exn "ConnectionError" "memory down"), w);
     Scratchpad.backend_get := λ _ dflt w, (Ok dflt, w);
     Scratchpad.backend_delete := λ _ w, (Ok false, w);
     Scratchpad.backend_get_all := λ w, (Ok [], w);
     Scratchpad.backend_keys := λ w, (Ok [], w);
     Scratchpad.backend_clear := λ w, (Ok (), w) |}.

(** An engine on a crew, as [Crew.kickoff] builds it. *)
Definition engine (crew : Crew.t)
    (memory_backend : option (Scratchpad.MemoryBackend ())) (h : store)
    : WorkflowEngine.t * WorkflowEngine.machine :=
  WorkflowEngine.__init__ crew (Crew.verbose crew)
    (Crew.checkpoint_enabled crew) memory_backend h ().

Definition run (executor : Agent.t → string → M () string) (fuel : nat)
    (crew : Crew.t) (memory_backend : option (Scratchpad.MemoryBackend ()))
    (h : store) :=
  WorkflowEngine._execute_sequential executor clock show fuel
    (engine crew memory_backend h).1 (engine crew memory_backend h).2.

Definition checkpoint : CheckpointManager.t :=
  CheckpointManager.mk "checkpoints/crew.json".
Definition uuids : nat → string := λ n, "uuid-" +:+ pretty n.

End Examples.

(** * Properties *)

(** ** Dictionaries *)

Module PyDictFacts.
Section Facts.
Context {V : Type}.
Implicit Types (d : PyDict.t V) (k : string) (v : V).

Lemma get_set_eq k v d : PyDict.get k (PyDict.set k v d) = Some v.
Proof.
  induction d as [|[k' v'] d IH]; simpl.
  - by rewrite String.eqb_refl.
  - destruct (String.eqb k k') eqn:E; simpl; rewrite ?String.eqb_refl, ?E; done.
Qed.

Lemma get_set_ne k k' v d :
  k ≠ k' → PyDict.get k' (PyDict.set k v d) = PyDict.get k' d.
Proof.
  intros Hne. induction d as [|[k0 v0] d IH]; simpl.
  - apply String.eqb_neq in Hne. rewrite String.eqb_sym in Hne. by rewrite Hne.
  - destruct (String.eqb k k0) eqn:E; simpl.
    + apply String.eqb_eq in E as <-.
      assert (String.eqb k' k = false) as -> by (apply String.eqb_neq; congruence).
      done.
    + by rewrite IH.
Qed.

Lemma get_del_eq k d : PyDict.get k (PyDict.del k d) = None.
Proof.
  induction d as [|[k' v'] d IH]; simpl; [done|].
  destruct (String.eqb k k') eqn:E; simpl; rewrite ?E; done.
Qed.

Lemma get_del_ne k k' d :
  k ≠ k' → PyDict.get k' (PyDict.del k d) = PyDict.get k' d.
Proof.
  intros Hne. induction d as [|[k0 v0] d IH]; simpl; [done|].
  destruct (String.eqb k k0) eqn:E; simpl.
  - apply String.eqb_eq in E as <-.
    assert (String.eqb k' k = false) as -> by (apply String.eqb_neq; congruence).
    done.
  - by rewrite IH.
Qed.

Lemma contains_get k d :
  PyDict.contains k d = true ↔ is_Some (PyDict.get k d).
Proof.
  unfold PyDict.contains. destruct (PyDict.get k d); split; intros H;
    try done; by destruct H.
Qed.

Lemma contains_del k d : PyDict.contains k (PyDict.del k d) = false.
Proof. unfold PyDict.contains. by rewrite get_del_eq. Qed.
End Facts.
End PyDictFacts.

(** ** The readiness predicate *)

Lemma is_ready_true (h : store) (self : ref) :
  Task.is_ready h self = true ↔
  ∀ dep, dep ∈ Task.dependencies (h !!! self) →
         Task.status (h !!! dep) = COMPLETED.
Proof.
  unfold Task.is_ready. rewrite forallb_forall. split.
  - intros H dep Hdep. apply list_elem_of_In, H in Hdep.
    by apply bool_decide_eq_true in Hdep.
  - intros H dep Hdep. apply bool_decide_eq_true, H. by apply list_elem_of_In.
Qed.

(** C2.  [Task.is_ready] is true exactly when every task of the dependency
    list has status [COMPLETED]; nothing else is consulted, so a task with an
    empty dependency list is ready whatever its own status, in particular
    while it is [PENDING]. *)
Theorem is_ready_iff_dependencies_completed (h : store) (self : ref) :
  (Task.is_ready h self = true ↔
     ∀ dep, dep ∈ Task.dependencies (h !!! self) →
            Task.status (h !!! dep) = COMPLETED) ∧
  (Task.dependencies (h !!! self) = [] → Task.is_ready h self = true).
Proof.
  split; [apply is_ready_true|].
  intros Hnil. apply is_ready_true. rewrite Hnil. intros dep Hdep.
  by apply elem_of_nil in Hdep.
Qed.

(** ** The mark-operations *)

Lemma apply_mark_status (op : mark_op) (task : Task.t) :
  Task.status (apply_mark op task) = mark_target op.
Proof. by destruct op. Qed.

Lemma mark_target_not_pending (op : mark_op) : mark_target op ≠ PENDING.
Proof. by destruct op. Qed.

Lemma run_marks_snoc (ops : list mark_op) (op : mark_op) (task : Task.t) :
  run_marks (ops ++ [op]) task = apply_mark op (run_marks ops task).
Proof. unfold run_marks. by rewrite foldl_app. Qed.

(** C9, as the code has it.  A mark-operation assigns its own status
    whatever the current one; none of them assigns [PENDING], so a task that
    has left [PENDING] is never back there after any run of mark-operations,
    and a non-empty run always leaves it. *)
Theorem marks_never_return_to_pending :
  (∀ op task, Task.status (apply_mark op task) = mark_target op) ∧
  (∀ op, mark_target op ≠ PENDING) ∧
  (∀ ops task, Task.status task ≠ PENDING →
     Task.status (run_marks ops task) ≠ PENDING) ∧
  (∀ ops task, ops ≠ [] → Task.status (run_marks ops task) ≠ PENDING).
Proof.
  split_and!.
  - apply apply_mark_status.
  - apply mark_target_not_pending.
  - intros ops. induction ops as [|op ops IH] using rev_ind; intros task Hne.
    + done.
    + rewrite run_marks_snoc, apply_mark_status. apply mark_target_not_pending.
  - intros ops. destruct ops as [|op ops] using rev_ind; intros task Hne.
    + done.
    + rewrite run_marks_snoc, apply_mark_status. apply mark_target_not_pending.
Qed.

(** C9, as stated, fails: marking a completed task in progress moves it
    from [COMPLETED] back to [IN_PROGRESS], which is no move of the
    lifecycle. *)
Lemma marks_do_not_follow_lifecycle : ¬ marks_follow_lifecycle.
Proof.
  intros H.
  specialize (H inhabitant [MarkInProgress; MarkCompleted "done"] MarkInProgress).
  simpl in H. inversion H.
Qed.

(** ** The defaults of [llm_config] *)

Lemma default_llm_config_defaulted (cfg : PyDict.t pyval) :
  defaulted cfg (Agent.default_llm_config cfg).
Proof.
  unfold defaulted, Agent.default_llm_config, PyDict.contains.
  destruct (PyDict.get "model" cfg) as [m|] eqn:Em;
    destruct (PyDict.get "temperature" cfg) as [t|] eqn:Et; simpl;
    rewrite ?Et; simpl;
    rewrite ?PyDictFacts.get_set_eq, ?(PyDictFacts.get_set_ne "model" "temperature"),
      ?(PyDictFacts.get_set_ne "temperature" "model"), ?PyDictFacts.get_set_eq,
      ?Em, ?Et by done; simpl;
    rewrite ?PyDictFacts.get_set_eq, ?(PyDictFacts.get_set_ne "model" "temperature"),
      ?(PyDictFacts.get_set_ne "temperature" "model"), ?PyDictFacts.get_set_eq,
      ?Em, ?Et by done; simpl;
    split_and!; try done;
    intros k ? ?; by rewrite ?PyDictFacts.get_set_ne.
Qed.

Lemma post_init_llm_config (a a' : Agent.t) :
  Agent.__post_init__ a = Ok a' →
  Agent.llm_config a' = Agent.default_llm_config (Agent.llm_config a).
Proof.
  unfold Agent.__post_init__. intros H.
  destruct (negb (truthy_str (Agent.role a))); [done|].
  destruct (negb (truthy_str (Agent.goal a))); [done|].
  by injection H as <-.
Qed.

Lemma bind_Ok {A B} (m : outcome A) (f : A → outcome B) (b : B) :
  m ≫= f = Ok b → ∃ a, m = Ok a ∧ f a = Ok b.
Proof. destruct m as [a|e]; [by exists a | done]. Qed.


(** ** The in-process scratchpad *)

(** Unfold the plumbing of a scratchpad method. *)
Ltac run_scratchpad :=
  cbv [Scratchpad.run_op];
  cbv [Scratchpad.set Scratchpad.get Scratchpad.delete Scratchpad.get_all
       Scratchpad.keys Scratchpad.has_key Scratchpad.clear Scratchpad.self_
       Scratchpad.set_data Scratchpad.on_backend
       mbind M_bind mret M_ret gets modify raise];
  simpl.

Section ScratchpadContract.
Context {W : Type}.
Implicit Types (pad : Scratchpad.t W) (w : W) (k : string) (v : pyval).

(** Without a backend, a request leaves the scratchpad without a backend
    and the world as it was. *)
Lemma run_op_in_process o pad w :
  Scratchpad._backend pad = None →
  Scratchpad._backend (Scratchpad.run_op o (pad, w)).1 = None ∧
  (Scratchpad.run_op o (pad, w)).2 = w.
Proof.
  intros Hb. destruct pad as [b d]; simpl in Hb; subst b.
  destruct o; run_scratchpad; try done.
  by destruct (PyDict.contains key d).
Qed.

(** ... and changes the entry of [k] only if it is a [set] or a [delete]
    of [k] itself, or a [clear]. *)
Lemma run_op_other_key o pad w k :
  Scratchpad._backend pad = None →
  Scratchpad.touches k o = false →
  PyDict.get k (Scratchpad._data (Scratchpad.run_op o (pad, w)).1) =
  PyDict.get k (Scratchpad._data pad).
Proof.
  intros Hb Ht. destruct pad as [b d]; simpl in Hb; subst b.
  destruct o; simpl in Ht; run_scratchpad; try done.
  - apply PyDictFacts.get_set_ne. apply String.eqb_neq in Ht. congruence.
  - destruct (PyDict.contains key d); simpl; [|done].
    apply PyDictFacts.get_del_ne. apply String.eqb_neq in Ht. congruence.
Qed.

Lemma run_ops_other_key os pad w k :
  Scratchpad._backend pad = None →
  Forall (λ o, Scratchpad.touches k o = false) os →
  Scratchpad._backend (Scratchpad.run_ops os (pad, w)).1 = None ∧
  PyDict.get k (Scratchpad._data (Scratchpad.run_ops os (pad, w)).1) =
  PyDict.get k (Scratchpad._data pad).
Proof.
  intros Hb Hos. revert pad w Hb.
  induction Hos as [|o os Ho Hos IH]; intros pad w Hb; [done|].
  unfold Scratchpad.run_ops in *. simpl.
  destruct (Scratchpad.run_op o (pad, w)) as [pad' w'] eqn:E.
  pose proof (run_op_in_process o pad w Hb) as [Hb' _].
  pose proof (run_op_other_key o pad w k Hb Ho) as Hk.
  rewrite E in Hb', Hk. simpl in Hb', Hk.
  destruct (IH pad' w' Hb') as [? ?]. split; [done|congruence].
Qed.

Lemma get_in_process pad w k dflt :
  Scratchpad._backend pad = None →
  Scratchpad.get k dflt (pad, w) =
  (Ok (default dflt (PyDict.get k (Scratchpad._data pad))), (pad, w)).
Proof. intros Hb. destruct pad as [b d]; simpl in Hb; by subst b. Qed.
End ScratchpadContract.

(** C8.  The scratchpad without a backend: [get(k)] after [set(k, v)]
    gives [v], and still does after any requests that neither set nor delete
    [k] nor clear the scratchpad; after [delete(k)], [get(k, default)] gives
    the default; [delete(k)] returns whether [k] was present, and [False]
    when repeated; reading ([get], [get_all], [keys], [has_key]) changes
    nothing, and no request touches the world: nothing expires. *)
Theorem scratchpad_set_get_delete {W : Type} (pad : Scratchpad.t W) (w : W)
    (k : string) (v dflt : pyval) :
  Scratchpad._backend pad = None →
  let s := (pad, w) in
  (∀ os, Forall (λ o, Scratchpad.touches k o = false) os →
     (Scratchpad.get k dflt (Scratchpad.run_ops os (Scratchpad.set k v s).2)).1
     = Ok v) ∧
  (Scratchpad.get k dflt (Scratchpad.delete k s).2).1 = Ok dflt ∧
  (Scratchpad.delete k s).1 = Ok (PyDict.contains k (Scratchpad._data pad)) ∧
  (Scratchpad.delete k (Scratchpad.delete k s).2).1 = Ok false ∧
  (Scratchpad.get k dflt s).2 = s ∧
  (Scratchpad.get_all s).2 = s ∧
  (Scratchpad.keys s).2 = s ∧
  (Scratchpad.has_key k s).2 = s ∧
  (∀ os, (Scratchpad.run_ops os s).2 = w).
Proof.
  intros Hb s. subst s. destruct pad as [b d]; simpl in Hb; subst b.
  split_and!; try done.
  - intros os Hos.
    change (Scratchpad.set k v (Scratchpad.mk None d, w)).2
      with (Scratchpad.mk (W:=W) None (PyDict.set k v d), w).
    destruct (Scratchpad.run_ops os _) as [pad' w'] eqn:E.
    pose proof (run_ops_other_key os (Scratchpad.mk None (PyDict.set k v d)) w k
                  eq_refl Hos) as [Hb' Hk].
    rewrite E in Hb', Hk. simpl in Hb', Hk.
    rewrite get_in_process by done. simpl.
    by rewrite Hk, PyDictFacts.get_set_eq.
  - run_scratchpad.
    destruct (PyDict.contains k d) eqn:E; simpl.
    + unfold PyDict.get_default. by rewrite PyDictFacts.get_del_eq.
    + unfold PyDict.get_default, PyDict.contains in *.
      by destruct (PyDict.get k d).
  - run_scratchpad. by destruct (PyDict.contains k d).
  - run_scratchpad.
    destruct (PyDict.contains k d) eqn:E; simpl.
    + by rewrite PyDictFacts.contains_del.
    + by rewrite E.
  - intros os.
    generalize (Scratchpad.mk (W:=W) None d)
      (eq_refl : Scratchpad._backend (Scratchpad.mk (W:=W) None d) = None).
    induction os as [|o os IH]; intros pad Hb; [done|].
    unfold Scratchpad.run_ops in *; simpl.
    destruct (Scratchpad.run_op o (pad, w)) as [pad' w'] eqn:E.
    pose proof (run_op_in_process o pad w Hb) as [Hb' Hw].
    rewrite E in Hb', Hw. simpl in Hb', Hw. subst w'. by apply IH.
Qed.

(** The contract at work: a value is set, other keys are written and read,
    and the value is still there. *)
Lemma scratchpad_set_get_delete_witness :
  Scratchpad._backend (Scratchpad.__init__ (W:=unit) None) = None ∧
  (Scratchpad.get "k" VNone
     (Scratchpad.run_ops [Scratchpad.OpSet "j" (VInt 1); Scratchpad.OpDelete "j";
                          Scratchpad.OpGet "k" VNone]
        (Scratchpad.set "k" (VStr "v") (Scratchpad.__init__ None, ())).2)).1
  = Ok (VStr "v").
Proof.
  split; [reflexivity|].
  apply (scratchpad_set_get_delete (Scratchpad.__init__ None) () "k" (VStr "v") VNone
           eq_refl).
  repeat constructor.
Defined.

(** ** The engine: one task *)

(** Unfold the plumbing of the engine's calls. *)
Ltac run_engine :=
  cbv [WorkflowEngine._execute_task WorkflowEngine.on_heap
       WorkflowEngine.on_world WorkflowEngine.on_scratchpad
       WorkflowEngine.lift WorkflowEngine.for_body WorkflowEngine._checkpoint
       mbind M_bind mret M_ret gets modify raise try_except];
  simpl.


Lemma keeps_identity_compose g1 g2 :
  keeps_identity g1 → keeps_identity g2 → keeps_identity (g2 ∘ g1).
Proof.
  intros H1 H2 t. destruct (H1 t) as (?&?&?), (H2 (g1 t)) as (?&?&?).
  simpl. split_and!; congruence.
Qed.

Lemma lookup_update_other (g : Task.t → Task.t) (task other : ref) (h : store) :
  other ≠ task → Task.update g task h !!! other = h !!! other.
Proof. intros. unfold Task.update. by apply list_lookup_total_alter_ne. Qed.

Lemma lookup_update_same (g : Task.t → Task.t) (task : ref) (h : store) :
  task < length h → Task.update g task h !!! task = g (h !!! task).
Proof. intros. unfold Task.update. by apply list_lookup_total_alter_eq. Qed.

Lemma update_update (g1 g2 : Task.t → Task.t) (task : ref) (h : store) :
  Task.update g2 task (Task.update g1 task h) = Task.update (g2 ∘ g1) task h.
Proof. unfold Task.update. apply list_alter_alter_eq. Qed.

Lemma update_keeps_identity (g : Task.t → Task.t) (task r : ref) (h : store) :
  keeps_identity g →
  Task.dependencies (Task.update g task h !!! r) = Task.dependencies (h !!! r) ∧
  Task.task_id (Task.update g task h !!! r) = Task.task_id (h !!! r) ∧
  Task.agent (Task.update g task h !!! r) = Task.agent (h !!! r).
Proof.
  intros Hg. unfold Task.update. rewrite list_lookup_total_alter.
  case_decide as Hd; [|done]. destruct Hd as [-> _]. apply Hg.
Qed.

Lemma filter_head_split {A} (P : A → Prop) `{!∀ x, Decision (P x)}
    (l : list A) (x : A) (r : list A) :
  filter P l = x :: r →
  ∃ l1 l2, l = l1 ++ x :: l2 ∧ Forall (λ y, ¬ P y) l1 ∧ P x ∧ filter P l2 = r.
Proof.
  induction l as [|y l IH]; [done|].
  rewrite filter_cons. case_decide as Hy.
  - intros [= -> <-]. by exists [], l.
  - intros (l1 & l2 & -> & Hl1 & Hx & Hr)%IH.
    exists (y :: l1), l2. split_and!; try done. by constructor.
Qed.

Lemma filter_none {A} (P : A → Prop) `{!∀ x, Decision (P x)} (l : list A) :
  (∀ x, x ∈ l → ¬ P x) → filter P l = [].
Proof.
  intros Hnone. destruct (filter P l) as [|x r] eqn:E; [done|].
  assert (x ∈ filter P l) as [Hx Hin]%list_elem_of_filter
    by (rewrite E; apply list_elem_of_here).
  by destruct (Hnone x Hin).
Qed.

Lemma memory_reliable_same_backend {W} (pad pad' : option (Scratchpad.t W)) :
  (Scratchpad._backend <$> pad') = (Scratchpad._backend <$> pad) →
  memory_reliable pad → memory_reliable pad'.
Proof.
  intros Heq Hrel p b -> Hb. destruct pad as [p0|]; [|done].
  simpl in Heq. injection Heq as Heq. apply (Hrel p0 b eq_refl). congruence.
Qed.

Ltac finish_outcome :=
  split;
  [ by rewrite ?update_update
  | split_and!; try done;
    first [ by repeat apply keeps_identity_compose | by left | by right ] ].

Section EngineFacts.
Context {W : Type}.
Variable execute_turn : Agent.t → string → M W string.
Variable time_time : W → float * W.
Variable py_str : pyval → string.

Abbreviation machine := (@WorkflowEngine.machine W).
Abbreviation Machine := (@WorkflowEngine.Machine W).
Abbreviation heap := (@WorkflowEngine.heap W).
Abbreviation scratchpad := (@WorkflowEngine.scratchpad W).
Abbreviation world := (@WorkflowEngine.world W).
Abbreviation build_prompt := (WorkflowEngine.build_prompt (W:=W) py_str).
Abbreviation _execute_task :=
  (WorkflowEngine._execute_task execute_turn time_time py_str).
Abbreviation while_body :=
  (WorkflowEngine.while_body execute_turn time_time py_str).
Abbreviation while_loop :=
  (WorkflowEngine.while_loop execute_turn time_time py_str).
Abbreviation _execute_sequential :=
  (WorkflowEngine._execute_sequential execute_turn time_time py_str).

(** Building the prompt touches the world only. *)
Lemma build_prompt_frame (task : ref) (m : machine) :
  ∃ r w', build_prompt task m = (r, Machine (heap m) (scratchpad m) w').
Proof.
  destruct m as [h pad w]. unfold WorkflowEngine.build_prompt. run_engine.
  destruct pad as [pad|]; [|by eauto].
  destruct (Agent.memory_enabled _); [|by eauto].
  destruct pad as [[b|] d]; run_scratchpad.
  - destruct (Scratchpad.backend_get_all b w) as [[data|e] w']; [|by eauto].
    destruct (truthy_dict data); by eauto.
  - destruct (truthy_dict d); by eauto.
Qed.

(** With a reliable memory the prompt is built. *)
Lemma build_prompt_reliable (task : ref) (m : machine) :
  memory_reliable (scratchpad m) →
  ∃ prompt w', build_prompt task m = (Ok prompt, Machine (heap m) (scratchpad m) w').
Proof.
  intros Hrel. destruct m as [h pad w]. unfold WorkflowEngine.build_prompt.
  run_engine. simpl in Hrel.
  destruct pad as [pad|]; [|by eauto].
  destruct (Agent.memory_enabled _); [|by eauto].
  destruct pad as [[b|] d]; run_scratchpad.
  - destruct (Hrel _ b eq_refl eq_refl) as [Hget _].
    destruct (Hget w) as (data & w' & ->).
    destruct (truthy_dict data); by eauto.
  - destruct (truthy_dict d); by eauto.
Qed.

(** [_execute_task] never raises: it returns a record, the task has
    been marked completed or failed and is otherwise as it was, and so is
    the rest of the store. *)
Lemma execute_task_outcome (self : WorkflowEngine.t) (task : ref) (m : machine) :
  ∃ result g pad' w',
    _execute_task self task m =
      (Ok result, Machine (Task.update g task (heap m)) pad' w') ∧
    keeps_identity g ∧
    (Scratchpad._backend <$> pad') = (Scratchpad._backend <$> scratchpad m) ∧
    TaskResult.task_id result = Task.task_id (heap m !!! task) ∧
    entry_agent_role (TaskResult.to_dict result) =
      Some (VStr (Agent.role (Task.agent (heap m !!! task)))) ∧
    ((TaskResult.success result = true ∧ ∀ t, Task.status (g t) = COMPLETED) ∨
     (TaskResult.success result = false ∧ ∀ t, Task.status (g t) = FAILED)).
Proof.
  destruct m as [h pad w].
  assert (Hin : keeps_identity Task.mark_in_progress) by done.
  assert (Hco : ∀ out, keeps_identity (Task.mark_completed out)) by done.
  assert (Hfa : ∀ err, keeps_identity (Task.mark_failed err)) by done.
  destruct (update_keeps_identity Task.mark_in_progress task task h Hin)
    as (_ & Hid & Hag).
  destruct (build_prompt_frame task
              (Machine (Task.update Task.mark_in_progress task h) pad w))
    as (r & w1 & Hbp).
  run_engine. simpl in Hbp. rewrite Hbp, Hid, Hag.
  destruct r as [prompt|e]; simpl.
  2:{ eexists _, (Task.mark_failed (exn_text e) ∘ Task.mark_in_progress), _, _.
      finish_outcome. }
  destruct (time_time w1) as [t0 w2]; simpl.
  destruct (execute_turn _ _ _) as [[output|e] w3]; simpl.
  2:{ eexists _, (Task.mark_failed (exn_text e) ∘ Task.mark_in_progress), _, _.
      finish_outcome. }
  destruct (time_time w3) as [t1 w4]; simpl.
  destruct pad as [[[b|] d]|]; run_scratchpad.
  - destruct (Scratchpad.backend_set b _ _ _) as [[[]|e] w5]; simpl.
    + eexists _, (Task.mark_completed output ∘ Task.mark_in_progress), _, _.
      finish_outcome.
    + eexists _, (Task.mark_failed (exn_text e) ∘
                  (Task.mark_completed output ∘ Task.mark_in_progress)), _, _.
      finish_outcome.
  - eexists _, (Task.mark_completed output ∘ Task.mark_in_progress), _, _.
    finish_outcome.
  - eexists _, (Task.mark_completed output ∘ Task.mark_in_progress), _, _.
    finish_outcome.
Qed.

(** With an executor that answers and a reliable memory, the task is
    completed. *)
Lemma execute_task_succeeds (self : WorkflowEngine.t) (task : ref) (m : machine) :
  executor_succeeds execute_turn → memory_reliable (scratchpad m) →
  ∃ result g pad' w',
    _execute_task self task m =
      (Ok result, Machine (Task.update g task (heap m)) pad' w') ∧
    keeps_identity g ∧
    (Scratchpad._backend <$> pad') = (Scratchpad._backend <$> scratchpad m) ∧
    TaskResult.task_id result = Task.task_id (heap m !!! task) ∧
    entry_agent_role (TaskResult.to_dict result) =
      Some (VStr (Agent.role (Task.agent (heap m !!! task)))) ∧
    TaskResult.success result = true ∧ ∀ t, Task.status (g t) = COMPLETED.
Proof.
  intros Hexec Hrel. destruct m as [h pad w]. simpl in Hrel.
  assert (Hin : keeps_identity Task.mark_in_progress) by done.
  assert (Hco : ∀ out, keeps_identity (Task.mark_completed out)) by done.
  destruct (update_keeps_identity Task.mark_in_progress task task h Hin)
    as (_ & Hid & Hag).
  destruct (build_prompt_reliable task
              (Machine (Task.update Task.mark_in_progress task h) pad w) Hrel)
    as (prompt & w1 & Hbp).
  run_engine. simpl in Hbp. rewrite Hbp, Hid, Hag. simpl.
  destruct (time_time w1) as [t0 w2]; simpl.
  destruct (Hexec (Task.agent (h !!! task)) prompt w2) as (output & w3 & ->).
  simpl. destruct (time_time w3) as [t1 w4]; simpl.
  destruct pad as [[[b|] d]|]; run_scratchpad.
  - destruct (Hrel _ b eq_refl eq_refl) as [_ Hset].
    destruct (Hset ("task_" +:+ Task.task_id (h !!! task) +:+ "_result")
                (VStr output) w4) as (w5 & ->). simpl.
    eexists _, (Task.mark_completed output ∘ Task.mark_in_progress), _, _.
    split; [by rewrite update_update|].
    split_and!; try done; by apply keeps_identity_compose.
  - eexists _, (Task.mark_completed output ∘ Task.mark_in_progress), _, _.
    split; [by rewrite update_update|].
    split_and!; try done; by apply keeps_identity_compose.
  - eexists _, (Task.mark_completed output ∘ Task.mark_in_progress), _, _.
    split; [by rewrite update_update|].
    split_and!; try done; by apply keeps_identity_compose.
Qed.

(** A task that was ready stays ready when another task, on which it
    does not depend, is marked. *)
Lemma ready_elsewhere (g : Task.t → Task.t) (task other : ref) (h : store)
    (crew : Crew.t) :
  keeps_identity g → other ≠ task →
  task ∉ Task.dependencies (h !!! other) →
  other ∈ Crew.get_ready_tasks h crew →
  other ∈ Crew.get_ready_tasks (Task.update g task h) crew.
Proof.
  intros Hg Hne Hdep. unfold Crew.get_ready_tasks.
  rewrite !list_elem_of_filter. intros [[Hst Hready] Hin].
  split; [|done]. rewrite lookup_update_other by done. split; [done|].
  apply Is_true_true in Hready. apply Is_true_true.
  unfold Task.is_ready in *. rewrite lookup_update_other by done.
  rewrite forallb_forall in *. intros dep Hd.
  specialize (Hready dep Hd). apply list_elem_of_In in Hd.
  rewrite lookup_update_other; [done|]. by intros ->.
Qed.

(** C6.  When the turn executor raises during the execution of a task,
    [_execute_task] does not raise: it returns a record with
    [success = False] and the text of the exception as [error]; the task
    is marked [FAILED] with that text as its error; every other task is as
    it was, and those that were ready and do not depend on the failed one
    are still ready. *)
Theorem executor_failure_is_captured (self : WorkflowEngine.t) (task : ref)
    (m : machine) (prompt : string) (m2 : machine) (now : float) (w1 w2 : W)
    (e : exn) :
  task < length (heap m) →
  build_prompt task
    (Machine (Task.update Task.mark_in_progress task (heap m))
             (scratchpad m) (world m)) = (Ok prompt, m2) →
  time_time (world m2) = (now, w1) →
  execute_turn (Task.agent (heap m !!! task)) prompt w1 = (Raise e, w2) →
  ∃ result m',
    _execute_task self task m = (Ok result, m') ∧
    TaskResult.success result = false ∧
    TaskResult.error result = exn_text e ∧
    TaskResult.task_id result = Task.task_id (heap m !!! task) ∧
    Task.status (heap m' !!! task) = FAILED ∧
    Task.error (heap m' !!! task) = Some (exn_text e) ∧
    (∀ other, other ≠ task → heap m' !!! other = heap m !!! other) ∧
    (∀ crew other, other ≠ task →
       task ∉ Task.dependencies (heap m !!! other) →
       other ∈ Crew.get_ready_tasks (heap m) crew →
       other ∈ Crew.get_ready_tasks (heap m') crew).
Proof.
  intros Hlt Hbp Htime Hexec. destruct m as [h pad w]. simpl in *.
  assert (Hin : keeps_identity Task.mark_in_progress) by done.
  destruct (update_keeps_identity Task.mark_in_progress task task h Hin)
    as (_ & Hid & Hag).
  destruct (build_prompt_frame task
              (Machine (Task.update Task.mark_in_progress task h) pad w))
    as (r & w0 & Hbp').
  rewrite Hbp in Hbp'. injection Hbp' as <- ->. simpl in Htime.
  run_engine. rewrite Hbp, Hid, Hag. simpl. rewrite Htime. simpl.
  rewrite Hexec. simpl. rewrite update_update.
  eexists _, _. split; [done|]. simpl. split_and!; try done.
  - by rewrite lookup_update_same.
  - by rewrite lookup_update_same.
  - intros other Hne. by apply lookup_update_other.
  - intros crew other Hne Hdep Hready. by apply ready_elsewhere.
Qed.

(** *** The sequential loop *)

Lemma ready_not_complete (h : store) (crew : Crew.t) (task : ref) :
  task ∈ Crew.tasks crew → Task.status (h !!! task) = PENDING →
  Crew.is_complete h crew = false.
Proof.
  intros Hin Hst. unfold Crew.is_complete.
  apply not_true_is_false. rewrite forallb_forall. intros Hall.
  apply list_elem_of_In, Hall, bool_decide_eq_true in Hin.
  rewrite Hst in Hin.
  apply elem_of_cons in Hin as [|Hin]; [done|].
  apply elem_of_cons in Hin as [|Hin]; [done|].
  by apply elem_of_nil in Hin.
Qed.

Lemma while_body_ready (self : WorkflowEngine.t) out n (m m' : machine)
    (task : ref) (rest : list ref) (result : TaskResult.t) :
  Crew.get_ready_tasks (heap m) (WorkflowEngine.crew self) = task :: rest →
  _execute_task self task m = (Ok result, m') →
  while_body self ((out, n), m) =
    (Ok Next, ((out ++ [TaskResult.to_dict result], S n), m')).
Proof.
  intros Hready Hexec. unfold WorkflowEngine.while_body.
  cbv [mbind M_bind mret M_ret gets]. simpl. rewrite Hready.
  cbv [for_in WorkflowEngine.for_body WorkflowEngine.lift
       WorkflowEngine._checkpoint mbind M_bind mret M_ret modify].
  rewrite Hexec. by destruct (WorkflowEngine.checkpoint_enabled self).
Qed.

(** C4.  When the ready set is not empty, one pass through the body of
    the sequential loop executes the first task of the ready set and no
    other: the record of that execution is appended to [tasks_output], the
    counter goes up by one, every other task object is untouched, and the
    loop goes on from there, computing the ready set anew.  The ready set
    is the crew's task list filtered, in list order, so its first element
    is the first pending task of the list whose dependencies are all
    completed.  The run being a function of the crew, the store and the
    executor, the order of execution is determined by them. *)
Theorem sequential_pass_executes_first_ready (self : WorkflowEngine.t)
    (out : list (PyDict.t pyval)) (n : nat) (m : machine)
    (task : ref) (rest : list ref) :
  Crew.get_ready_tasks (heap m) (WorkflowEngine.crew self) = task :: rest →
  ∃ result m',
    _execute_task self task m = (Ok result, m') ∧
    while_body self ((out, n), m) =
      (Ok Next, ((out ++ [TaskResult.to_dict result], S n), m')) ∧
    (∀ fuel, while_loop (S fuel) self ((out, n), m) =
             while_loop fuel self
               ((out ++ [TaskResult.to_dict result], S n), m')) ∧
    (∀ other, other ≠ task → heap m' !!! other = heap m !!! other) ∧
    (∃ before after,
       Crew.tasks (WorkflowEngine.crew self) = before ++ task :: after ∧
       (∀ t, t ∈ before →
          ¬ (Task.status (heap m !!! t) = PENDING ∧ Task.is_ready (heap m) t)) ∧
       Task.status (heap m !!! task) = PENDING ∧
       Task.is_ready (heap m) task = true ∧
       rest = filter (λ t, Task.status (heap m !!! t) = PENDING ∧
                           Task.is_ready (heap m) t) after).
Proof.
  intros Hready.
  destruct (execute_task_outcome self task m)
    as (result & g & pad' & w' & Hexec & Hg & _).
  pose proof (filter_head_split _ _ _ _ Hready)
    as (before & after & Htasks & Hbefore & [Hst Hrd] & Hrest).
  eexists _, _. split; [exact Hexec|].
  pose proof (while_body_ready self out n _ _ _ _ _ Hready Hexec) as Hbody.
  split_and!.
  - exact Hbody.
  - intros fuel. simpl.
    rewrite (ready_not_complete _ _ task), Hbody; [done| |done].
    rewrite Htasks. apply elem_of_app. right. apply list_elem_of_here.
  - intros other Hne. simpl. by apply lookup_update_other.
  - exists before, after. split_and!; try done.
    + intros t Ht. by apply (proj1 (Forall_forall _ _) Hbefore).
    + by apply Is_true_true.
Qed.

Lemma final_output_from_records (i : nat) (results : list TaskResult.t) :
  ∃ parts,
    WorkflowEngine.final_output_from py_str i (TaskResult.to_dict <$> results)
    = Ok parts.
Proof.
  revert i. induction results as [|r results IH]; intros i; [by eexists|].
  destruct (IH (S i)) as (more & Hmore).
  rewrite fmap_cons. cbn [WorkflowEngine.final_output_from].
  rewrite Hmore. unfold WorkflowEngine.final_output_parts. simpl.
  destruct (TaskResult.success r); simpl; by eexists.
Qed.

Lemma no_failed_when_completed (h : store) (crew : Crew.t) :
  (∀ t, t ∈ Crew.tasks crew → Task.status (h !!! t) = COMPLETED) →
  Crew.is_complete h crew = true ∧ Crew.has_failed_tasks h crew = false.
Proof.
  intros Hall. split.
  - unfold Crew.is_complete. apply forallb_forall. intros t Ht.
    apply list_elem_of_In, Hall in Ht. rewrite Ht.
    apply bool_decide_eq_true. apply list_elem_of_here.
  - unfold Crew.has_failed_tasks. apply not_true_is_false.
    rewrite existsb_exists. intros (t & Ht & Hf).
    apply list_elem_of_In, Hall in Ht. rewrite Ht in Hf.
    by apply bool_decide_eq_true in Hf.
Qed.


(** The loop on independent tasks: [finished] are the tasks already
    completed, [todo] those still pending, in the order of the task list. *)
Lemma while_loop_independent (self : WorkflowEngine.t) (todo : list ref) :
  executor_succeeds execute_turn →
  ∀ (finished : list ref) (out : list (PyDict.t pyval)) (n : nat) (m : machine)
    (fuel : nat),
    Crew.tasks (WorkflowEngine.crew self) = finished ++ todo →
    NoDup (finished ++ todo) →
    (∀ t, t ∈ finished ++ todo → t < length (heap m)) →
    memory_reliable (scratchpad m) →
    (∀ t, t ∈ finished → Task.status (heap m !!! t) = COMPLETED) →
    (∀ t, t ∈ todo → Task.status (heap m !!! t) = PENDING ∧
                     Task.dependencies (heap m !!! t) = []) →
    (length todo ≤ fuel)%nat →
    ∃ results m',
      while_loop fuel self ((out, n), m) =
        Some (Ok (), ((out ++ (TaskResult.to_dict <$> results),
                       n + length todo), m')) ∧
      (∀ t, t ∈ finished ++ todo → Task.status (heap m' !!! t) = COMPLETED) ∧
      Forall2 (λ t r,
                 entry_agent_role (TaskResult.to_dict r) =
                   Some (VStr (Agent.role (Task.agent (heap m !!! t)))) ∧
                 TaskResult.task_id r = Task.task_id (heap m !!! t))
              todo results.
Proof.
  intros Hexec. induction todo as [|t todo IH];
    intros finished out n m fuel Htasks Hnd Hstore Hrel Hdone Htodo Hfuel.
  - exists [], m. rewrite app_nil_r in Htasks, Hnd, Hstore. simpl.
    rewrite app_nil_r.
    destruct (no_failed_when_completed (heap m) (WorkflowEngine.crew self))
      as [Hc _]; [by rewrite Htasks|].
    split_and!.
    + destruct fuel; simpl; rewrite Hc; by rewrite Nat.add_0_r.
    + by rewrite app_nil_r.
    + constructor.
  - destruct fuel as [|fuel]; [simpl in Hfuel; lia|].
    assert (Ht : t ∈ Crew.tasks (WorkflowEngine.crew self))
      by (rewrite Htasks; apply elem_of_app; right; apply list_elem_of_here).
    destruct (Htodo t (list_elem_of_here _ _)) as [Hst Hdeps].
    assert (Hready : ∃ rest,
               Crew.get_ready_tasks (heap m) (WorkflowEngine.crew self) = t :: rest).
    { unfold Crew.get_ready_tasks. rewrite Htasks, filter_app.
      rewrite (filter_none _ finished), filter_cons.
      - case_decide as Hd; [by eexists|]. destruct Hd. split; [done|].
        apply Is_true_true, is_ready_true. rewrite Hdeps.
        intros dep Hdep. by apply elem_of_nil in Hdep.
      - intros d Hd [Hp _]. by rewrite (Hdone d Hd) in Hp. }
    destruct Hready as (rest & Hready).
    destruct (execute_task_succeeds self t m Hexec Hrel)
      as (result & g & pad' & w' & Hrun & Hg & Hpad & Hid & Hrole & _ & Hstatus).
    pose proof (while_body_ready self out n _ _ _ _ _ Hready Hrun) as Hbody.
    assert (Hneq : ∀ u, u ∈ finished ∨ u ∈ todo → u ≠ t).
    { intros u Hu ->. apply NoDup_app in Hnd as (Hnd1 & Hnd2 & Hnd3).
      destruct Hu as [Hu|Hu].
      - apply (Hnd2 t Hu), list_elem_of_here.
      - by apply NoDup_cons in Hnd3 as [? _]. }
    destruct (IH (finished ++ [t]) (out ++ [TaskResult.to_dict result]) (S n)
                (Machine (Task.update g t (heap m)) pad' w') fuel)
      as (results & m' & Hloop & Hall & Hroles).
    + by rewrite <- app_assoc.
    + by rewrite <- app_assoc.
    + intros u Hu. rewrite <- app_assoc in Hu. simpl.
      unfold Task.update. rewrite length_alter. by apply Hstore.
    + by apply (memory_reliable_same_backend (scratchpad m)).
    + intros u [Hu| ->%list_elem_of_singleton]%elem_of_app; simpl.
      * rewrite lookup_update_other by (apply Hneq; by left). by apply Hdone.
      * rewrite lookup_update_same; [done|].
        apply Hstore, elem_of_app. right. apply list_elem_of_here.
    + intros u Hu. simpl.
      rewrite lookup_update_other by (apply Hneq; by right).
      apply Htodo. by apply list_elem_of_further.
    + simpl in Hfuel. lia.
    + exists (result :: results), m'. split_and!.
      * replace (n + length (t :: todo)) with (S n + length todo)
          by (simpl; lia).
        rewrite fmap_cons.
        replace (out ++ TaskResult.to_dict result :: (TaskResult.to_dict <$> results))
          with ((out ++ [TaskResult.to_dict result]) ++
                (TaskResult.to_dict <$> results))
          by (by rewrite <- app_assoc).
        rewrite <- Hloop.
        simpl. by rewrite (ready_not_complete _ _ t Ht Hst), Hbody.
      * intros u Hu. apply Hall. by rewrite <- app_assoc.
      * constructor; [done|].
        eapply Forall2_impl; [exact Hroles|]. simpl. intros u r [Hr1 Hr2].
        destruct (update_keeps_identity g t u (heap m) Hg) as (_ & Hi & Ha).
        by rewrite <- Ha, <- Hi.
Qed.

(** C5, for a run that starts on distinct pending tasks with a memory
    that does not fail.  With an executor that answers every call, the
    sequential execution of [N] tasks without dependencies returns an
    output with [success = True] and [N] entries, one per task in the
    order of the task list, each carrying the task's id and the role of
    its agent; every task ends [COMPLETED]. *)
Theorem independent_tasks_all_complete (self : WorkflowEngine.t)
    (m : machine) (fuel : nat) :
  executor_succeeds execute_turn →
  memory_reliable (scratchpad m) →
  crew_in_store (heap m) (WorkflowEngine.crew self) →
  NoDup (Crew.tasks (WorkflowEngine.crew self)) →
  (∀ t, t ∈ Crew.tasks (WorkflowEngine.crew self) →
        Task.status (heap m !!! t) = PENDING ∧
        Task.dependencies (heap m !!! t) = []) →
  (length (Crew.tasks (WorkflowEngine.crew self)) ≤ fuel)%nat →
  ∃ out m',
    _execute_sequential fuel self m = Some (Ok out, m') ∧
    CrewOutput.success out = true ∧
    length (CrewOutput.tasks_output out) =
      length (Crew.tasks (WorkflowEngine.crew self)) ∧
    (∀ t, t ∈ Crew.tasks (WorkflowEngine.crew self) →
          Task.status (heap m' !!! t) = COMPLETED) ∧
    Forall2 (λ t entry,
               entry_agent_role entry =
                 Some (VStr (Agent.role (Task.agent (heap m !!! t)))) ∧
               entry_task_id entry =
                 Some (VStr (Task.task_id (heap m !!! t))))
            (Crew.tasks (WorkflowEngine.crew self))
            (CrewOutput.tasks_output out).
Proof.
  intros Hexec Hrel Hstore Hnd Hfresh Hfuel.
  assert (Hdone : ∀ t : ref, t ∈ [] → Task.status (heap m !!! t) = COMPLETED)
    by (intros t Ht; by apply elem_of_nil in Ht).
  destruct (while_loop_independent self (Crew.tasks (WorkflowEngine.crew self))
              Hexec [] [] 0 m fuel eq_refl Hnd Hstore Hrel Hdone Hfresh Hfuel)
    as (results & m' & Hloop & Hall & Hroles).
  unfold WorkflowEngine._execute_sequential. rewrite Hloop. simpl.
  destruct (no_failed_when_completed (heap m') (WorkflowEngine.crew self) Hall)
    as [_ Hnf].
  unfold WorkflowEngine._generate_final_output.
  destruct (final_output_from_records 1 results) as (parts & ->). simpl.
  eexists _, _. split; [reflexivity|]. simpl. split_and!.
  - by rewrite Hnf.
  - rewrite length_fmap. symmetry. by eapply Forall2_length.
  - done.
  - apply Forall2_fmap_r. eapply Forall2_impl; [exact Hroles|].
    simpl. intros t r [Hr1 Hr2]. split; [done|].
    unfold entry_task_id. simpl. by rewrite Hr2.
Qed.
End EngineFacts.

(** ** Cycle detection *)

Lemma filter_length_mono {A} (P Q : A → Prop) `{!∀ x, Decision (P x)}
    `{!∀ x, Decision (Q x)} (l : list A) :
  (∀ x, P x → Q x) → length (filter P l) ≤ length (filter Q l).
Proof.
  intros HPQ. induction l as [|x l IH]; [done|].
  rewrite !filter_cons. destruct (decide (P x)) as [HP|HP].
  - rewrite decide_True by auto. simpl. lia.
  - destruct (decide (Q x)); simpl; lia.
Qed.

Lemma filter_length_lt {A} (P Q : A → Prop) `{!∀ x, Decision (P x)}
    `{!∀ x, Decision (Q x)} (l : list A) (y : A) :
  (∀ x, P x → Q x) → y ∈ l → Q y → ¬ P y →
  length (filter P l) < length (filter Q l).
Proof.
  intros HPQ Hy HQ HP. induction l as [|x l IH]; [by apply elem_of_nil in Hy|].
  rewrite !filter_cons. apply elem_of_cons in Hy as [<-|Hy].
  - rewrite decide_False, decide_True by done. simpl.
    pose proof (filter_length_mono P Q l HPQ). lia.
  - specialize (IH Hy). destruct (decide (P x)) as [HPx|HPx].
    + rewrite decide_True by auto. simpl. lia.
    + destruct (decide (Q x)); simpl; lia.
Qed.

Lemma unvisited_mono (h : store) (V V' : gset string) :
  V ⊆ V' → unvisited h V' ≤ unvisited h V.
Proof. intros HV. apply filter_length_mono. set_solver + HV. Qed.

Lemma unvisited_visit (h : store) (V : gset string) (t : ref) :
  t < length h → Task.task_id (h !!! t) ∉ V →
  unvisited h (V ∪ {[Task.task_id (h !!! t)]}) < unvisited h V.
Proof.
  intros Ht Hid. apply (filter_length_lt _ _ _ t).
  - set_solver +.
  - apply elem_of_seq. lia.
  - done.
  - set_solver +.
Qed.

(** A chain of dependencies that comes back to its start is an infinite
    chain. *)
Lemma Acc_not_on_cycle (h : store) (c : ref) :
  Acc (depends_on h) c → ¬ on_cycle h c.
Proof.
  induction 1 as [c _ IH]. intros Hcyc. unfold on_cycle in *.
  inversion Hcyc as [? ? Hstep | ? d ? Hstep Hrest]; subst.
  - exact (IH c Hstep Hcyc).
  - apply (IH d Hstep). eapply tc_r; [exact Hrest | exact Hstep].
Qed.

Lemma Acc_reaches (h : store) (t c : ref) :
  Acc (depends_on h) t → reaches h t c → Acc (depends_on h) c.
Proof.
  intros Hacc Hreach. induction Hreach as [|t d c Hstep _ IH]; [done|].
  apply IH. by apply (Acc_inv Hacc).
Qed.

Section DepthFirstSearch.
Variable h : store.
Variable dom : ref → Prop.
Hypothesis dom_closed : ∀ r d, dom r → depends_on h d r → dom d.
Hypothesis dom_distinct :
  ∀ r1 r2, dom r1 → dom r2 →
    Task.task_id (h !!! r1) = Task.task_id (h !!! r2) → r1 = r2.

Abbreviation tid r := (Task.task_id (h !!! r)).

(** *** A search that finds nothing proves that nothing is there *)

Lemma has_cycle_deps_safe call (deps : list ref) :
  (∀ d V R V' R', dom d → tid d ∉ V → R ⊆ V → finished_safe h dom V R →
     call d V R = Some (false, V', R') →
     R' = R ∧ V ⊆ V' ∧ tid d ∈ V' ∧ finished_safe h dom V' R') →
  ∀ V R V' R', (∀ d, d ∈ deps → dom d) → R ⊆ V → finished_safe h dom V R →
    Crew.has_cycle_deps call h deps V R = Some (false, V', R') →
    R' = R ∧ V ⊆ V' ∧ finished_safe h dom V' R' ∧
    ∀ d, d ∈ deps → tid d ∈ V' ∧ tid d ∉ R.
Proof.
  intros Hcall. induction deps as [|d deps IH];
    intros V R V' R' Hdom HRV Hsafe Hrun; simpl in Hrun.
  - injection Hrun as <- <-. split_and!; [done|done|done|].
    intros d Hd. by apply elem_of_nil in Hd.
  - assert (Hd : dom d) by apply Hdom, list_elem_of_here.
    assert (Hrest : ∀ d', d' ∈ deps → dom d')
      by (intros; by apply Hdom, list_elem_of_further).
    destruct (decide (tid d ∉ V)) as [Hnew|Hold].
    + destruct (call d V R) as [[[b V1] R1]|] eqn:Ecall; [|discriminate].
      destruct b; [discriminate|].
      destruct (Hcall _ _ _ _ _ Hd Hnew HRV Hsafe Ecall)
        as (-> & HV1 & HdV1 & Hsafe1).
      assert (HRV1 : R ⊆ V1) by set_solver + HRV HV1.
      destruct (IH _ _ _ _ Hrest HRV1 Hsafe1 Hrun)
        as (-> & HV' & Hsafe' & Hdeps).
      split_and!; [done|set_solver + HV1 HV'|done|].
      intros d' [->|Hd']%elem_of_cons; [|by apply Hdeps].
      split; [set_solver + HdV1 HV'|set_solver + Hnew HRV].
    + apply dec_stable in Hold.
      destruct (decide (tid d ∈ R)) as [Hon|Hoff]; [discriminate|].
      destruct (IH _ _ _ _ Hrest HRV Hsafe Hrun)
        as (-> & HV' & Hsafe' & Hdeps).
      split_and!; [done|done|done|].
      intros d' [->|Hd']%elem_of_cons; [|by apply Hdeps].
      split; [set_solver + Hold HV'|done].
Qed.

Lemma has_cycle_safe (fuel : nat) :
  ∀ t V R V' R', dom t → tid t ∉ V → R ⊆ V → finished_safe h dom V R →
    Crew.has_cycle fuel h t V R = Some (false, V', R') →
    R' = R ∧ V ⊆ V' ∧ tid t ∈ V' ∧ finished_safe h dom V' R'.
Proof.
  induction fuel as [|fuel IH]; intros t V R V' R' Ht Hnew HRV Hsafe Hrun;
    [discriminate|]. simpl in Hrun.
  destruct (Crew.has_cycle_deps _ _ _ _ _) as [[[b V1] R1]|] eqn:Edeps;
    [|discriminate].
  destruct b; [discriminate|]. injection Hrun as <- <-.
  assert (Hdeps_dom : ∀ d, d ∈ Task.dependencies (h !!! t) → dom d)
    by (intros d Hd; by apply (dom_closed t)).
  assert (HRV0 : R ∪ {[tid t]} ⊆ V ∪ {[tid t]}) by set_solver + HRV.
  assert (Hsafe0 : finished_safe h dom (V ∪ {[tid t]}) (R ∪ {[tid t]})).
  { intros r Hr HrV HrR. apply Hsafe; [done|set_solver + HrV HrR|set_solver + HrR]. }
  destruct (has_cycle_deps_safe _ _ IH _ _ _ _ Hdeps_dom HRV0 Hsafe0 Edeps)
    as (-> & HV1 & Hsafe1 & Hdeps).
  split_and!.
  - set_solver + HRV Hnew.
  - set_solver + HV1.
  - set_solver + HV1.
  - intros r Hr HrV HrR. destruct (decide (tid r = tid t)) as [Heq|Hne].
    + apply dom_distinct in Heq as ->; [|done|done].
      constructor. intros d Hd. destruct (Hdeps d Hd) as [HdV HdR].
      apply Hsafe1; [|done|done]. by apply (dom_closed t).
    + apply Hsafe1; [done|done|]. set_solver + HrR Hne.
Qed.

(** *** A search that finds something has found a cycle *)

Lemma has_cycle_deps_found call (t : ref) (deps : list ref) :
  (∀ d V R b V' R', dom d → stack_leads_to h dom R d →
     call d V R = Some (b, V', R') →
     (b = false → R' ⊆ R) ∧
     (b = true → ∃ c, reaches h d c ∧ on_cycle h c)) →
  dom t → (∀ d, d ∈ deps → depends_on h d t) →
  ∀ V R b V' R',
    (∀ g, dom g → tid g ∈ R → rtc (flip (depends_on h)) g t) →
    Crew.has_cycle_deps call h deps V R = Some (b, V', R') →
    (b = false → R' ⊆ R) ∧
    (b = true → ∃ c, reaches h t c ∧ on_cycle h c).
Proof.
  intros Hcall Ht. induction deps as [|d deps IH];
    intros Hedges V R b V' R' Hstack Hrun; simpl in Hrun.
  - injection Hrun as <- <- <-. split; [done|]. intros [=].
  - assert (Hedge : depends_on h d t) by apply Hedges, list_elem_of_here.
    assert (Hd : dom d) by by apply (dom_closed t).
    assert (Hrest : ∀ d', d' ∈ deps → depends_on h d' t)
      by (intros; by apply Hedges, list_elem_of_further).
    destruct (decide (tid d ∉ V)) as [Hnew|Hold].
    + destruct (call d V R) as [[[b1 V1] R1]|] eqn:Ecall; [|done].
      apply Hcall in Ecall as [Hfalse Htrue]; try done.
      2:{ intros g Hg HgR. eapply tc_rtc_l; [by apply Hstack|].
          by apply tc_once. }
      destruct b1.
      * injection Hrun as <- <- <-. split; [done|]. intros _.
        destruct (Htrue eq_refl) as (c & Hreach & Hcyc).
        exists c. split; [|done]. by eapply rtc_l.
      * specialize (Hfalse eq_refl).
        apply IH in Hrun as [Hfalse' Htrue']; try done.
        -- split; [|done]. intros Hb. specialize (Hfalse' Hb).
           set_solver + Hfalse Hfalse'.
        -- intros g Hg HgR. apply Hstack; [done|]. set_solver + Hfalse HgR.
    + destruct (decide (tid d ∈ R)) as [Hon|Hoff].
      * injection Hrun as <- <- <-. split; [done|]. intros _.
        exists d. split; [by apply rtc_once|].
        eapply tc_rtc_l; [by apply Hstack|]. by apply tc_once.
      * by apply IH in Hrun.
Qed.

Lemma has_cycle_found (fuel : nat) :
  ∀ t V R b V' R', dom t → stack_leads_to h dom R t →
    Crew.has_cycle fuel h t V R = Some (b, V', R') →
    (b = false → R' ⊆ R) ∧
    (b = true → ∃ c, reaches h t c ∧ on_cycle h c).
Proof.
  induction fuel as [|fuel IH]; intros t V R b V' R' Ht Hstack Hrun; [done|].
  simpl in Hrun.
  destruct (Crew.has_cycle_deps _ _ _ _ _) as [[[b1 V1] R1]|] eqn:Edeps; [|done].
  apply (has_cycle_deps_found _ t _ IH) in Edeps as [Hfalse Htrue]; try done.
  - destruct b1; injection Hrun as <- <- <-.
    + split; [done|]. by intros _; apply Htrue.
    + split; [|done]. intros _. specialize (Hfalse eq_refl).
      set_solver + Hfalse.
  - intros g Hg [HgR|Heq%elem_of_singleton]%elem_of_union.
    + by apply tc_rtc, Hstack.
    + apply dom_distinct in Heq as ->; done.
Qed.

(** The loop over the crew's tasks, when it accepts. *)
Lemma validate_tasks_ok_safe (fuel : nat) (ts : list ref) :
  ∀ V, (∀ t, t ∈ ts → dom t) → finished_safe h dom V ∅ →
    Crew.validate_tasks fuel h ts V = Some (Ok ()) →
    ∀ t, t ∈ ts → Acc (depends_on h) t.
Proof.
  induction ts as [|t ts IH]; intros V Hts Hsafe Hrun t' Ht'.
  - by apply elem_of_nil in Ht'.
  - assert (Ht : dom t) by apply Hts, list_elem_of_here.
    assert (Hrest : ∀ t'', t'' ∈ ts → dom t'')
      by (intros; by apply Hts, list_elem_of_further).
    simpl in Hrun. destruct (decide (tid t ∉ V)) as [Hnew|Hold].
    + destruct (Crew.has_cycle fuel h t V ∅) as [[[b V1] R1]|] eqn:Ecall;
        [|discriminate].
      destruct b; [discriminate|].
      assert (HRV : (∅ : gset string) ⊆ V) by set_solver +.
      destruct (has_cycle_safe fuel t V ∅ V1 R1 Ht Hnew HRV Hsafe Ecall)
        as (-> & HV1 & HtV1 & Hsafe1).
      assert (Hall : ∀ t'', t'' ∈ ts → Acc (depends_on h) t'')
        by (by apply (IH V1)).
      apply elem_of_cons in Ht' as [->|Ht']; [|by apply Hall].
      apply Hsafe1; [done|done|]. apply not_elem_of_empty.
    + apply dec_stable in Hold.
      apply elem_of_cons in Ht' as [->|Ht']; [|by apply (IH V)].
      apply Hsafe; [done|done|]. apply not_elem_of_empty.
Qed.

(** *** The search terminates *)

Hypothesis closed : store_closed h.

Lemma has_cycle_deps_terminates call (fuel : nat) (deps : list ref) :
  (∀ d V R, d < length h → tid d ∉ V → unvisited h V ≤ fuel →
     ∃ b V' R', call d V R = Some (b, V', R') ∧ V ⊆ V') →
  (∀ d, d ∈ deps → d < length h) →
  ∀ V R, unvisited h V ≤ fuel →
    ∃ b V' R', Crew.has_cycle_deps call h deps V R = Some (b, V', R') ∧ V ⊆ V'.
Proof.
  intros Hcall. induction deps as [|d deps IH]; intros Hvalid V R Hfuel; simpl.
  - by eexists _, _, _.
  - assert (Hrest : ∀ d', d' ∈ deps → d' < length h)
      by (intros; by apply Hvalid, list_elem_of_further).
    destruct (decide (tid d ∉ V)) as [Hnew|Hold].
    + destruct (Hcall d V R) as (b & V1 & R1 & -> & HV1); try done.
      { apply Hvalid, list_elem_of_here. }
      destruct b; [by eexists _, _, _|].
      destruct (IH Hrest V1 R1) as (b & V' & R' & -> & HV').
      { pose proof (unvisited_mono h V V1 HV1). lia. }
      eexists _, _, _. split; [done|]. set_solver + HV1 HV'.
    + destruct (decide (tid d ∈ R)); [by eexists _, _, _|].
      by apply IH.
Qed.

Lemma has_cycle_terminates (fuel : nat) :
  ∀ t V R, t < length h → tid t ∉ V → unvisited h V ≤ fuel →
    ∃ b V' R', Crew.has_cycle fuel h t V R = Some (b, V', R') ∧ V ⊆ V'.
Proof.
  induction fuel as [|fuel IH]; intros t V R Ht Hnew Hfuel.
  - pose proof (unvisited_visit h V t Ht Hnew) as Hlt.
    apply Nat.le_0_r in Hfuel. rewrite Hfuel in Hlt.
    by apply Nat.nlt_0_r in Hlt.
  - assert (Hvalid : ∀ d, d ∈ Task.dependencies (h !!! t) → d < length h)
      by (intros d Hd; by apply (closed t)).
    assert (Hfuel' : unvisited h (V ∪ {[tid t]}) ≤ fuel).
    { apply Nat.lt_succ_r. eapply Nat.lt_le_trans; [|exact Hfuel].
      by apply unvisited_visit. }
    destruct (has_cycle_deps_terminates (Crew.has_cycle fuel h) fuel
                (Task.dependencies (h !!! t)) IH Hvalid
                (V ∪ {[tid t]}) (R ∪ {[tid t]}) Hfuel')
      as (b & V1 & R1 & Hrun & HV1).
    exists b, V1, (if b then R1 else R1 ∖ {[tid t]}).
    cbn [Crew.has_cycle]. rewrite Hrun.
    destruct b; (split; [done|set_solver + HV1]).
Qed.

(** *** The loop over the crew's tasks *)

Lemma validate_tasks_decides (fuel : nat) (ts : list ref) :
  length h ≤ fuel →
  ∀ V, (∀ t, t ∈ ts → dom t ∧ t < length h) → finished_safe h dom V ∅ →
    (Crew.validate_tasks fuel h ts V = Some (Ok ()) ∧
     ∀ t, t ∈ ts → Acc (depends_on h) t) ∨
    (Crew.validate_tasks fuel h ts V =
       Some (Raise (ValueError "Circular dependency detected in tasks")) ∧
     ∃ t c, t ∈ ts ∧ reaches h t c ∧ on_cycle h c).
Proof.
  intros Hfuel. induction ts as [|t ts IH]; intros V Hts Hsafe; simpl.
  - left. split; [done|]. intros t Ht. by apply elem_of_nil in Ht.
  - destruct (Hts t (list_elem_of_here _ _)) as [Ht Hlt].
    assert (Hrest : ∀ t', t' ∈ ts → dom t' ∧ t' < length h)
      by (intros; by apply Hts, list_elem_of_further).
    destruct (decide (tid t ∉ V)) as [Hnew|Hold].
    + assert (Hmeasure : unvisited h V ≤ fuel).
      { unfold unvisited.
        pose proof (length_filter (λ r, tid r ∉ V) (seq 0 (length h))) as Hle.
        rewrite length_seq in Hle. lia. }
      destruct (has_cycle_terminates fuel t V ∅ Hlt Hnew Hmeasure)
        as (b & V1 & R1 & Hrun & HV1).
      rewrite Hrun.
      assert (Hstack : stack_leads_to h dom ∅ t).
      { intros g _ HgR. by apply not_elem_of_empty in HgR. }
      destruct b.
      * right. split; [done|]. exists t.
        destruct (has_cycle_found fuel t V ∅ true V1 R1 Ht Hstack Hrun)
          as [_ Htrue].
        destruct (Htrue eq_refl) as (c & Hreach & Hcyc). exists c.
        split_and!; [apply list_elem_of_here|done|done].
      * assert (HRV : (∅ : gset string) ⊆ V) by set_solver +.
        destruct (has_cycle_safe fuel t V ∅ V1 R1 Ht Hnew HRV Hsafe Hrun)
          as (-> & _ & HtV1 & Hsafe1).
        destruct (IH V1 Hrest Hsafe1)
          as [[-> Hacc]|[-> (t' & c & Ht' & Hreach & Hcyc)]].
        -- left. split; [done|].
           intros t' [->|Ht']%elem_of_cons; [|by apply Hacc].
           apply Hsafe1; [done|done|]. apply not_elem_of_empty.
        -- right. split; [done|]. exists t', c.
           split_and!; [by apply list_elem_of_further|done|done].
    + apply dec_stable in Hold.
      destruct (IH V Hrest Hsafe)
        as [[-> Hacc]|[-> (t' & c & Ht' & Hreach & Hcyc)]].
      * left. split; [done|].
        intros t' [->|Ht']%elem_of_cons; [|by apply Hacc].
        apply Hsafe; [done|done|]. apply not_elem_of_empty.
      * right. split; [done|]. exists t', c.
        split_and!; [by apply list_elem_of_further|done|done].
Qed.
End DepthFirstSearch.

(** ** Construction of a crew *)

Lemma store_closedb_sound (h : store) : store_closedb h = true → store_closed h.
Proof.
  unfold store_closedb. rewrite forallb_forall. intros Hall r d Hr Hd.
  destruct (lookup_lt_is_Some_2 h r Hr) as [task Htask].
  rewrite (list_lookup_total_correct _ _ _ Htask) in Hd.
  apply list_elem_of_lookup_2, list_elem_of_In, Hall in Htask.
  rewrite forallb_forall in Htask.
  apply list_elem_of_In, Htask in Hd. by apply Nat.ltb_lt in Hd.
Qed.

Lemma reachable_in_store (h : store) (crew : Crew.t) (r : ref) :
  store_closed h → crew_in_store h crew → reachable h crew r → r < length h.
Proof.
  intros Hclosed Hin (t & Ht & Hreach). apply Hin in Ht.
  induction Hreach as [|t d r Hstep _ IH]; [done|].
  apply IH. by apply (Hclosed t).
Qed.

Lemma all_ids_distinct_reachable (h : store) (crew : Crew.t) :
  store_closed h → crew_in_store h crew → all_ids_distinct h →
  distinct_task_ids h crew.
Proof.
  intros Hclosed Hin Hnd r1 r2 Hr1 Hr2 Heq.
  apply (reachable_in_store h crew) in Hr1, Hr2; try done.
  destruct (lookup_lt_is_Some_2 h r1 Hr1) as [t1 Ht1].
  destruct (lookup_lt_is_Some_2 h r2 Hr2) as [t2 Ht2].
  rewrite (list_lookup_total_correct _ _ _ Ht1),
    (list_lookup_total_correct _ _ _ Ht2) in Heq.
  eapply (NoDup_lookup _ r1 r2 (Task.task_id t1) Hnd).
  - by rewrite list_lookup_fmap, Ht1.
  - by rewrite list_lookup_fmap, Ht2, Heq.
Qed.

Lemma check_task_agents_ok (h : store) (ids : gset string) (ts : list ref) :
  (∀ t, t ∈ ts → Agent.agent_id (Task.agent (h !!! t)) ∈ ids) →
  Crew.check_task_agents h ids ts = Ok ().
Proof.
  induction ts as [|t ts IH]; intros Hall; simpl; [done|].
  rewrite decide_False.
  - apply IH. intros t' Ht'. by apply Hall, list_elem_of_further.
  - intros Hnot. apply Hnot, Hall, list_elem_of_here.
Qed.

(** The validation of the dependency graph, on a crew whose reachable
    tasks have distinct ids. *)
Lemma validate_decides (fuel : nat) (h : store) (crew : Crew.t) :
  store_closed h → crew_in_store h crew → distinct_task_ids h crew →
  length h ≤ fuel →
  (Crew._validate_task_dependencies fuel h crew = Some (Ok ()) ∧ ¬ cyclic h crew) ∨
  (Crew._validate_task_dependencies fuel h crew =
     Some (Raise (ValueError "Circular dependency detected in tasks")) ∧
   cyclic h crew).
Proof.
  intros Hclosed Hin Hdistinct Hfuel.
  assert (Hdom : ∀ r d, reachable h crew r → depends_on h d r → reachable h crew d).
  { intros r d (t & Ht & Hreach) Hstep. exists t. split; [done|].
    unfold reaches in *. eapply rtc_r; [exact Hreach|exact Hstep]. }
  assert (Hts : ∀ t, t ∈ Crew.tasks crew → reachable h crew t ∧ t < length h).
  { intros t Ht. split; [|by apply Hin]. exists t. split; [done|].
    apply rtc_refl. }
  assert (Hsafe : finished_safe h (reachable h crew) ∅ ∅).
  { intros r _ Hr. by apply not_elem_of_empty in Hr. }
  destruct (validate_tasks_decides h (reachable h crew) Hdom Hdistinct Hclosed
              fuel (Crew.tasks crew) Hfuel ∅ Hts Hsafe)
    as [[Hrun Hacc]|[Hrun (t & c & Ht & Hreach & Hcyc)]].
  - left. split; [done|]. intros (t & c & Ht & Hreach & Hcyc).
    apply (Acc_not_on_cycle h c); [|done].
    apply (Acc_reaches h t); [by apply Hacc|done].
  - right. split; [done|]. by exists t, c.
Qed.

(** Past its three first checks, [Crew.__post_init__] is the validation of
    the dependency graph. *)
Lemma post_init_validates (fuel : nat) (h : store) (crew : Crew.t) :
  Crew.agents crew ≠ [] → Crew.tasks crew ≠ [] → agents_in_crew h crew →
  Crew.__post_init__ fuel h crew = Crew._validate_task_dependencies fuel h crew.
Proof.
  intros Hagents Htasks Hmember. unfold Crew.__post_init__.
  destruct (Crew.agents crew) as [|a agents] eqn:Ea; [done|].
  destruct (Crew.tasks crew) as [|t ts] eqn:Et; [done|].
  rewrite <- Ea, <- Et.
  rewrite check_task_agents_ok; [done|].
  intros t' Ht'. apply elem_of_list_to_set. by apply Hmember.
Qed.


(** ** Checkpoints *)

Lemma mapO_as_str (l : list string) : mapO as_str (VStr <$> l) = Ok l.
Proof.
  induction l as [|x l IH]; [done|].
  rewrite fmap_cons. cbn [mapO as_str mbind outcome_bind]. by rewrite IH.
Qed.

Lemma TaskStatus_of_value_value (s : TaskStatus) :
  TaskStatus_of_value (TaskStatus_value s) = Ok s.
Proof. by destruct s. Qed.

Lemma ProcessType_of_value_value (p : ProcessType) :
  ProcessType_of_value (ProcessType_value p) = Ok p.
Proof. by destruct p. Qed.

Lemma as_opt_str_of_opt_str (o : option string) : as_opt_str (of_opt_str o) = Ok o.
Proof. by destruct o. Qed.

Lemma as_opt_int_of_opt_int (o : option Z) : as_opt_int (of_opt_int o) = Ok o.
Proof. by destruct o. Qed.

Lemma truthy_str_nonempty (s : string) : s ≠ "" → truthy_str s = true.
Proof. by destruct s. Qed.

(** Reading back what [Agent.to_dict] wrote runs the constructor on the
    same fields. *)
Lemma agent_from_dict_to_dict (uuid : string) (a : Agent.t) :
  Agent.from_dict uuid (Agent.to_dict a) = Agent.__post_init__ a.
Proof.
  destruct a. unfold Agent.from_dict, Agent.to_dict. cbn.
  rewrite mapO_as_str. done.
Qed.

Lemma agent_post_init_valid (a : Agent.t) :
  valid_agent a → Agent.__post_init__ a = Ok (restored_agent a).
Proof.
  intros [Hrole Hgoal]. unfold Agent.__post_init__.
  by rewrite !truthy_str_nonempty.
Qed.

(** Reading back what [Task.to_dict] wrote gives the task again, with the
    agent and the dependencies that the caller supplies. *)
Lemma task_from_dict_to_dict (uuid : string) (h : store) (t : ref)
    (agent : Agent.t) (deps : list ref) :
  Task.description (h !!! t) ≠ "" →
  Task.from_dict uuid (Task.to_dict h t) agent deps =
    Ok (restored_task agent deps (h !!! t)).
Proof.
  intros Hdesc. unfold Task.from_dict, Task.to_dict. cbn.
  rewrite TaskStatus_of_value_value. cbn.
  rewrite !as_opt_str_of_opt_str. cbn.
  unfold Task.__post_init__. cbn. by rewrite truthy_str_nonempty.
Qed.

Section Loading.
Variable uuid4 : nat → string.
Variable h : store.

Lemma load_agents_records (agents : list Agent.t) :
  Forall valid_agent agents →
  ∀ n acc agent_map,
    CheckpointManager.load_agents uuid4 n (agent_records agents) acc agent_map
    = Ok (acc ++ (restored_agent <$> agents),
          agent_map_of (restored_agent <$> agents) agent_map).
Proof.
  induction 1 as [|a agents Ha _ IH]; intros n acc agent_map.
  - by rewrite app_nil_r.
  - unfold agent_records. rewrite !fmap_cons.
    cbn [CheckpointManager.load_agents as_dict mbind outcome_bind].
    rewrite agent_from_dict_to_dict, (agent_post_init_valid a Ha).
    cbn [mbind outcome_bind].
    fold (agent_records agents). rewrite IH. by rewrite <- app_assoc.
Qed.

Lemma agent_map_of_snoc (agents : list Agent.t) (a : Agent.t) m :
  agent_map_of (agents ++ [a]) m =
  PyDict.set (Agent.agent_id a) a (agent_map_of agents m).
Proof. unfold agent_map_of. by rewrite foldl_app. Qed.

(** An id of the list is a key of the map, and leads to an agent of the
    list with that id. *)
Lemma agent_map_of_lookup (agents : list Agent.t) m (id : string) :
  id ∈ Agent.agent_id <$> agents →
  ∃ a, PyDict.get id (agent_map_of agents m) = Some a ∧
       Agent.agent_id a = id ∧ a ∈ agents.
Proof.
  induction agents as [|a agents IH] using rev_ind; intros Hid.
  - by apply elem_of_nil in Hid.
  - rewrite agent_map_of_snoc. destruct (decide (Agent.agent_id a = id)) as [<-|Hne].
    + exists a. rewrite PyDictFacts.get_set_eq. split_and!; [done|done|].
      apply elem_of_app. right. apply list_elem_of_here.
    + rewrite PyDictFacts.get_set_ne by done.
      rewrite fmap_app in Hid. apply elem_of_app in Hid as [Hid|Hid].
      * destruct (IH Hid) as (a' & Hget & Hida & Hin). exists a'.
        split_and!; [done|done|]. apply elem_of_app. by left.
      * apply list_elem_of_singleton in Hid. by destruct Hne.
Qed.

Lemma load_tasks_records (agent_map : PyDict.t Agent.t) (ts : list ref) :
  (∀ t, t ∈ ts → Task.description (h !!! t) ≠ "" ∧
     is_Some (PyDict.get (Agent.agent_id (Task.agent (h !!! t))) agent_map)) →
  ∀ n acc task_map,
    CheckpointManager.load_tasks uuid4 n (task_records h ts) agent_map acc
      task_map
    = Ok (acc ++ ((λ t, restored_task (agent_of h agent_map t) [] (h !!! t))
                    <$> ts),
          task_map_of ((λ t, Task.task_id (h !!! t)) <$> ts) (length acc)
            task_map).
Proof.
  induction ts as [|t ts IH]; intros Hts n acc task_map.
  - by rewrite app_nil_r.
  - destruct (Hts t (list_elem_of_here _ _)) as [Hdesc [a Ha]].
    unfold task_records. rewrite !fmap_cons.
    cbn [CheckpointManager.load_tasks as_dict mbind outcome_bind].
    replace (PyDict.item "agent_id" (Task.to_dict h t))
      with (Ok (A:=pyval) (VStr (Agent.agent_id (Task.agent (h !!! t)))))
      by done.
    cbn [as_str mbind outcome_bind]. unfold PyDict.item at 1. rewrite Ha.
    cbn [mbind outcome_bind].
    rewrite task_from_dict_to_dict by done. cbn [mbind outcome_bind].
    fold (task_records h ts). rewrite IH.
    + rewrite <- app_assoc, length_app. simpl.
      unfold agent_of. rewrite Ha. simpl.
      by replace (length acc + 1) with (S (length acc)) by lia.
    + intros t' Ht'. by apply Hts, list_elem_of_further.
Qed.

Lemma task_map_of_other (ids : list string) (start : nat) m (id : string) :
  id ∉ ids → PyDict.get id (task_map_of ids start m) = PyDict.get id m.
Proof.
  revert start m. induction ids as [|id0 ids IH]; intros start m Hid; [done|].
  apply not_elem_of_cons in Hid as [Hne Hid]. simpl.
  rewrite IH by done. by apply PyDictFacts.get_set_ne.
Qed.

(** With distinct ids, the map gives each id its position. *)
Lemma task_map_of_index (ids : list string) (start : nat) m (j : nat)
    (id : string) :
  NoDup ids → ids !! j = Some id →
  PyDict.get id (task_map_of ids start m) = Some (start + j).
Proof.
  revert start m j. induction ids as [|id0 ids IH]; intros start m j Hnd Hj;
    [done|].
  apply NoDup_cons in Hnd as [Hfresh Hnd]. destruct j as [|j]; simpl in *.
  - injection Hj as ->. rewrite task_map_of_other by done.
    rewrite PyDictFacts.get_set_eq. f_equal. lia.
  - rewrite (IH _ _ j) by done. f_equal. lia.
Qed.

Lemma resolve_items (task_map : PyDict.t ref) (ids : list string) :
  (∀ id, id ∈ ids → is_Some (PyDict.get id task_map)) →
  mapO (λ dep_id, PyDict.item dep_id task_map) ids = Ok (resolve task_map ids).
Proof.
  induction ids as [|id ids IH]; intros Hids; [done|].
  destruct (Hids id (list_elem_of_here _ _)) as [j Hj].
  unfold resolve. rewrite fmap_cons. cbn [mapO].
  rewrite IH by (intros id' Hid'; by apply Hids, list_elem_of_further).
  unfold PyDict.item. by rewrite Hj.
Qed.

Lemma wire_dependencies_records (agent_map : PyDict.t Agent.t)
    (task_map : PyDict.t ref) (todo : list ref) :
  (∀ t d, t ∈ todo → d ∈ Task.dependencies (h !!! t) →
          is_Some (PyDict.get (Task.task_id (h !!! d)) task_map)) →
  ∀ finished : store,
    CheckpointManager.wire_dependencies (task_records h todo) (length finished)
      task_map
      (finished ++ ((λ t, restored_task (agent_of h agent_map t) [] (h !!! t))
                  <$> todo))
    = Ok (finished ++ restored_store h agent_map task_map todo).
Proof.
  induction todo as [|t todo IH]; intros Hdeps finished; [done|].
  unfold task_records, restored_store. rewrite !fmap_cons.
  cbn [CheckpointManager.wire_dependencies].
  rewrite decide_True by (rewrite length_app; simpl; lia).
  cbn [as_dict mbind outcome_bind].
  replace (PyDict.item "dependencies" (Task.to_dict h t))
    with (Ok (A:=pyval) (VList (VStr <$> dependency_ids h t))).
  2:{ unfold dependency_ids. by rewrite <- list_fmap_compose. }
  unfold as_str_list. cbn [as_list mbind outcome_bind].
  rewrite mapO_as_str. cbn [mbind outcome_bind].
  rewrite resolve_items.
  2:{ intros id (d & -> & Hd)%list_elem_of_fmap.
      by apply (Hdeps t d); [apply list_elem_of_here|]. }
  cbn [mbind outcome_bind].
  unfold Task.update. rewrite alter_app_r_alt by lia.
  rewrite Nat.sub_diag. cbn [alter list_alter].
  specialize (IH (λ t' d Ht', Hdeps t' d (list_elem_of_further _ _ _ Ht'))
                (finished ++ [restored_task (agent_of h agent_map t)
                            (resolve task_map (dependency_ids h t)) (h !!! t)])).
  rewrite length_app in IH. simpl in IH.
  replace (length finished + 1) with (S (length finished)) in IH by lia.
  rewrite <- !app_assoc in IH. simpl in IH. exact IH.
Qed.
End Loading.

Lemma load_crew_arguments_record (h : store) (crew : Crew.t)
    (agents : list Agent.t) (ts : list ref) (uuid : string) :
  CheckpointManager.load_crew_arguments (Crew.to_dict h crew) agents ts uuid =
  Ok (Crew.mk agents ts (Crew.process crew) (Crew.memory crew)
        (Crew.cache crew) (Crew.verbose crew) (Crew.checkpoint_enabled crew)
        (Crew.max_rpm crew) uuid).
Proof.
  unfold CheckpointManager.load_crew_arguments, Crew.to_dict. cbn.
  rewrite ProcessType_of_value_value. cbn.
  by rewrite as_opt_int_of_opt_int.
Qed.

Lemma check_task_agents_inv (h : store) (ids : gset string) (ts : list ref) :
  Crew.check_task_agents h ids ts = Ok () →
  ∀ t, t ∈ ts → Agent.agent_id (Task.agent (h !!! t)) ∈ ids.
Proof.
  induction ts as [|t ts IH]; intros Hrun t' Ht'.
  - by apply elem_of_nil in Ht'.
  - simpl in Hrun. destruct (decide (_ ∉ ids)) as [|Hin]; [discriminate|].
    apply dec_stable in Hin.
    apply elem_of_cons in Ht' as [->|Ht']; [done|by apply IH].
Qed.

(** What a successful construction of the crew says about it. *)
Lemma post_init_ok_inv (fuel : nat) (h : store) (crew : Crew.t) :
  Crew.__post_init__ fuel h crew = Some (Ok ()) →
  Crew.agents crew ≠ [] ∧ Crew.tasks crew ≠ [] ∧ agents_in_crew h crew ∧
  Crew.validate_tasks fuel h (Crew.tasks crew) ∅ = Some (Ok ()).
Proof.
  unfold Crew.__post_init__. intros Hrun.
  destruct (Crew.agents crew) as [|a agents] eqn:Ea; [discriminate|].
  destruct (Crew.tasks crew) as [|t ts] eqn:Et; [discriminate|].
  rewrite <- Ea, <- Et in *.
  destruct (Crew.check_task_agents _ _ _) as [[]|e] eqn:Echeck; [|discriminate].
  split_and!; [by rewrite Ea|by rewrite Et| |done].
  intros t' Ht'. apply (check_task_agents_inv _ _ _ Echeck) in Ht'.
  by apply elem_of_list_to_set in Ht'.
Qed.

Lemma NoDup_fmap_elem_of {A B} (f : A → B) (l : list A) (x y : A) :
  NoDup (f <$> l) → x ∈ l → y ∈ l → f x = f y → x = y.
Proof.
  intros Hnd [i Hi]%list_elem_of_lookup [j Hj]%list_elem_of_lookup Heq.
  assert (i = j) as ->; [|congruence].
  apply (NoDup_lookup (f <$> l) i j (f x) Hnd); rewrite list_lookup_fmap.
  - by rewrite Hi.
  - by rewrite Hj, Heq.
Qed.

Section RoundTrip.
Variable uuid4 : nat → string.
Variable h : store.
Variable crew : Crew.t.
Hypothesis agents_valid : Forall valid_agent (Crew.agents crew).
Hypothesis tasks_valid :
  ∀ t, t ∈ Crew.tasks crew → Task.description (h !!! t) ≠ "".
Hypothesis members : agents_in_crew h crew.
Hypothesis distinct : crew_ids_distinct h crew.
Hypothesis inside : dependencies_in_crew h crew.

Abbreviation agents' := (restored_agent <$> Crew.agents crew).
Abbreviation amap := (agent_map_of agents' []).
Abbreviation tmap :=
  (task_map_of ((λ t, Task.task_id (h !!! t)) <$> Crew.tasks crew) 0 []).
Abbreviation h' := (restored_store h amap tmap (Crew.tasks crew)).

Lemma restored_agent_id (a : Agent.t) :
  Agent.agent_id (restored_agent a) = Agent.agent_id a.
Proof. done. Qed.

Lemma restored_agent_ids :
  Agent.agent_id <$> agents' = Agent.agent_id <$> Crew.agents crew.
Proof. rewrite <- list_fmap_compose. by apply list_fmap_ext. Qed.

Lemma agent_of_member (t : ref) :
  t ∈ Crew.tasks crew →
  is_Some (PyDict.get (Agent.agent_id (Task.agent (h !!! t))) amap) ∧
  Agent.agent_id (agent_of h amap t) = Agent.agent_id (Task.agent (h !!! t)).
Proof.
  intros Ht. destruct (agent_map_of_lookup agents' []
                         (Agent.agent_id (Task.agent (h !!! t))))
    as (a & Hget & Hid & _).
  - rewrite restored_agent_ids. by apply members.
  - unfold agent_of. rewrite Hget. by split; [eexists|].
Qed.

(** The task map leads from the id of a crew task to its position. *)
Lemma task_map_position (j : nat) (t : ref) :
  Crew.tasks crew !! j = Some t →
  PyDict.get (Task.task_id (h !!! t)) tmap = Some j.
Proof.
  intros Hj. rewrite (task_map_of_index _ 0 [] j (Task.task_id (h !!! t)));
    [done|exact distinct|].
  by rewrite list_lookup_fmap, Hj.
Qed.

(** The resolved dependencies are the positions of the dependencies. *)
Lemma resolve_dependencies (t : ref) :
  t ∈ Crew.tasks crew →
  Forall2 (λ j d, Crew.tasks crew !! j = Some d)
          (resolve tmap (dependency_ids h t)) (Task.dependencies (h !!! t)).
Proof.
  intros Ht. unfold resolve, dependency_ids. rewrite <- list_fmap_compose.
  apply Forall2_fmap_l, Forall_Forall2_diag, Forall_forall.
  intros d Hd. simpl.
  destruct (proj1 (list_elem_of_lookup _ _) (inside t d Ht Hd)) as [j Hj].
  by rewrite (task_map_position j d Hj).
Qed.

Lemma load_objects_saved :
  CheckpointManager.load_objects uuid4
    (VDict [ ("crew", VDict (Crew.to_dict h crew));
             ("agents", VList (agent_records (Crew.agents crew)));
             ("tasks", VList (task_records h (Crew.tasks crew))) ])
  = Ok (h', Crew.to_dict h crew,
        Crew.mk agents' (seq 0 (length (Crew.tasks crew)))
          (Crew.process crew) (Crew.memory crew) (Crew.cache crew)
          (Crew.verbose crew) (Crew.checkpoint_enabled crew)
          (Crew.max_rpm crew)
          (uuid4 (length (Crew.agents crew) + length (Crew.tasks crew)))).
Proof.
  unfold CheckpointManager.load_objects.
  cbn [as_dict as_list mbind outcome_bind PyDict.item PyDict.get String.eqb
       Ascii.eqb Bool.eqb].
  rewrite (load_agents_records uuid4 _ agents_valid 0 [] []).
  cbn [mbind outcome_bind fst snd app].
  rewrite (load_tasks_records uuid4 h amap (Crew.tasks crew)).
  2:{ intros t Ht. split; [by apply tasks_valid|].
      by destruct (agent_of_member t Ht). }
  cbn [mbind outcome_bind fst snd app length].
  assert (Hdeps : ∀ t d, t ∈ Crew.tasks crew →
            d ∈ Task.dependencies (h !!! t) →
            is_Some (PyDict.get (Task.task_id (h !!! d)) tmap)).
  { intros t d Ht Hd.
    destruct (proj1 (list_elem_of_lookup _ _) (inside t d Ht Hd)) as [j Hj].
    rewrite (task_map_position j d Hj). by eexists. }
  pose proof (wire_dependencies_records h amap tmap (Crew.tasks crew) Hdeps [])
    as Hwire.
  cbn [app length] in Hwire. rewrite Hwire.
  cbn [mbind outcome_bind].
  rewrite load_crew_arguments_record. cbn [mbind outcome_bind].
  unfold restored_store, agent_records, task_records.
  by rewrite !length_fmap.
Qed.

Lemma restored_length : length h' = length (Crew.tasks crew).
Proof. unfold restored_store. by rewrite length_fmap. Qed.

Lemma restored_lookup (i : nat) (t : ref) :
  Crew.tasks crew !! i = Some t →
  h' !!! i =
    restored_task (agent_of h amap t) (resolve tmap (dependency_ids h t))
      (h !!! t).
Proof.
  intros Hi. apply list_lookup_total_correct. unfold restored_store.
  by rewrite list_lookup_fmap, Hi.
Qed.

(** An edge of the restored store is an edge of the original one. *)
Lemma restored_edge (i j : nat) (t : ref) :
  Crew.tasks crew !! i = Some t → depends_on h' j i →
  ∃ d, Crew.tasks crew !! j = Some d ∧ depends_on h d t.
Proof.
  intros Hi Hedge. unfold depends_on in Hedge.
  rewrite (restored_lookup i t Hi) in Hedge. simpl in Hedge.
  assert (Ht : t ∈ Crew.tasks crew) by (by eapply list_elem_of_lookup_2).
  pose proof (resolve_dependencies t Ht) as Hres.
  apply list_elem_of_lookup in Hedge as [k Hk].
  destruct (Forall2_lookup_l _ _ _ _ _ Hres Hk) as (d & Hd & Hjd).
  exists d. split; [done|]. by eapply list_elem_of_lookup_2.
Qed.

Lemma restored_acc (r : ref) :
  Acc (depends_on h) r →
  ∀ i, Crew.tasks crew !! i = Some r → Acc (depends_on h') i.
Proof.
  induction 1 as [r _ IH]. intros i Hi. constructor. intros j Hedge.
  destruct (restored_edge i j r Hi Hedge) as (d & Hj & Hd).
  by apply (IH d).
Qed.

Lemma restored_closed : store_closed h'.
Proof.
  intros i j Hi Hedge. rewrite restored_length in *.
  destruct (lookup_lt_is_Some_2 _ _ Hi) as [t Ht].
  destruct (restored_edge i j t Ht Hedge) as (d & Hj & _).
  by eapply lookup_lt_Some.
Qed.

Lemma restored_ids :
  Task.task_id <$> h' = (λ t, Task.task_id (h !!! t)) <$> Crew.tasks crew.
Proof. unfold restored_store. by rewrite <- list_fmap_compose. Qed.

(** The constructor accepts the restored crew when it accepted the
    original one. *)
Lemma restored_post_init (fuel0 fuel : nat) (crew0 : Crew.t) :
  Crew.validate_tasks fuel0 h (Crew.tasks crew) ∅ = Some (Ok ()) →
  Crew.agents crew ≠ [] → Crew.tasks crew ≠ [] →
  Crew.agents crew0 = agents' →
  Crew.tasks crew0 = seq 0 (length (Crew.tasks crew)) →
  length (Crew.tasks crew) ≤ fuel →
  Crew.__post_init__ fuel h' crew0 = Some (Ok ()).
Proof.
  intros Hvalid Hagents Htasks Ha0 Ht0 Hfuel.
  assert (Hin0 : crew_in_store h' crew0).
  { intros i Hi. rewrite Ht0 in Hi. apply elem_of_seq in Hi.
    rewrite restored_length. lia. }
  assert (Hacc : ∀ t, t ∈ Crew.tasks crew → Acc (depends_on h) t).
  { assert (Hdc : ∀ r d, r ∈ Crew.tasks crew → depends_on h d r →
                          d ∈ Crew.tasks crew)
      by (intros r d Hr Hd; by apply (inside r)).
    assert (Hdd : ∀ r1 r2, r1 ∈ Crew.tasks crew → r2 ∈ Crew.tasks crew →
              Task.task_id (h !!! r1) = Task.task_id (h !!! r2) → r1 = r2).
    { intros r1 r2 Hr1 Hr2 Heq.
      by apply (NoDup_fmap_elem_of (λ t, Task.task_id (h !!! t))
                  (Crew.tasks crew)). }
    assert (Hsafe : finished_safe h (λ r, r ∈ Crew.tasks crew) ∅ ∅)
      by (intros r _ Hr; by apply not_elem_of_empty in Hr).
    exact (validate_tasks_ok_safe h (λ r, r ∈ Crew.tasks crew) Hdc Hdd fuel0
             (Crew.tasks crew) ∅ (λ t Ht, Ht) Hsafe Hvalid). }
  assert (Hdist0 : distinct_task_ids h' crew0).
  { apply all_ids_distinct_reachable; [apply restored_closed|done|].
    unfold all_ids_distinct. rewrite restored_ids. exact distinct. }
  assert (Hagents0 : Crew.agents crew0 ≠ []).
  { rewrite Ha0. intros Hnil. by apply fmap_nil_inv in Hnil. }
  assert (Htasks0 : Crew.tasks crew0 ≠ []).
  { rewrite Ht0. by destruct (Crew.tasks crew). }
  assert (Hmem0 : agents_in_crew h' crew0).
  { intros i Hi. rewrite Ht0 in Hi. apply elem_of_seq in Hi as [_ Hi].
    simpl in Hi. destruct (lookup_lt_is_Some_2 _ _ Hi) as [t Ht].
    rewrite (restored_lookup i t Ht), Ha0, restored_agent_ids. simpl.
    assert (Hmem : t ∈ Crew.tasks crew) by (by eapply list_elem_of_lookup_2).
    destruct (agent_of_member t Hmem) as [_ ->]. by apply members. }
  assert (Hfuel0 : length h' ≤ fuel) by (by rewrite restored_length).
  rewrite (post_init_validates fuel h' crew0 Hagents0 Htasks0 Hmem0).
  destruct (validate_decides fuel h' crew0 restored_closed Hin0 Hdist0 Hfuel0)
    as [[Hok _]|[_ Hcyclic]]; [done|].
  exfalso. destruct Hcyclic as (i & c & Hi & Hreach & Hcyc).
    rewrite Ht0 in Hi. apply elem_of_seq in Hi as [_ Hi]. simpl in Hi.
    destruct (lookup_lt_is_Some_2 _ _ Hi) as [t Ht].
    apply (Acc_not_on_cycle h' c); [|done].
    apply (Acc_reaches h' i); [|done].
    apply (restored_acc t); [|done].
    apply Hacc. by eapply list_elem_of_lookup_2.
Qed.

(** Position by position, the restored tasks have the ids, the statuses
    and the dependency ids of the original ones. *)
Lemma restored_tasks_agree :
  Forall2 (λ t' t,
             Task.task_id (h' !!! t') = Task.task_id (h !!! t) ∧
             Task.status (h' !!! t') = Task.status (h !!! t) ∧
             dependency_ids h' t' = dependency_ids h t)
          (seq 0 (length (Crew.tasks crew))) (Crew.tasks crew).
Proof.
  apply Forall2_same_length_lookup_2; [by rewrite length_seq|].
  intros i i' t Hi' Ht. apply lookup_seq in Hi' as [-> _]. simpl.
  rewrite (restored_lookup i t Ht). simpl. split_and!; [done|done|].
  unfold dependency_ids at 1. rewrite (restored_lookup i t Ht). simpl.
  assert (Hmem : t ∈ Crew.tasks crew) by (by eapply list_elem_of_lookup_2).
  pose proof (resolve_dependencies t Hmem) as Hres.
  unfold dependency_ids at 2.
  apply list_eq_Forall2, Forall2_fmap.
  eapply Forall2_impl; [exact Hres|]. simpl. intros j d Hj.
  by rewrite (restored_lookup j d Hj).
Qed.
End RoundTrip.


(** * The properties on the concrete crews *)

(** Case analysis on the membership in a literal list. *)
Ltac by_cases_on Ht :=
  repeat (apply elem_of_cons in Ht as [->|Ht]);
  try (by apply elem_of_nil in Ht).

(** In a store of two objects without a cycle, every reference starts only
    finite chains of dependencies. *)
Lemma twin_store_acyclic (c : ref) : Acc (depends_on Examples.twin_store) c.
Proof.
  assert (Hleaf : ∀ c, c ≠ 0 → Acc (depends_on Examples.twin_store) c).
  { intros [|[|c']] Hc; [done| |]; constructor; intros d Hd;
      unfold depends_on in Hd; simpl in Hd; by apply elem_of_nil in Hd. }
  destruct c as [|c]; [|by apply Hleaf].
  constructor. intros d Hd. unfold depends_on in Hd. simpl in Hd.
  apply list_elem_of_singleton in Hd as ->. by apply Hleaf.
Qed.





(** C4 on two tasks that are ready together. *)
Lemma sequential_pass_executes_first_ready_witness :
  Crew.get_ready_tasks Examples.independent_store Examples.independent_crew
    = [0; 1] ∧
  ∃ result m',
    WorkflowEngine.while_body Examples.answers Examples.clock Examples.show
      (Examples.engine Examples.independent_crew None
         Examples.independent_store).1
      (([], 0),
       (Examples.engine Examples.independent_crew None
          Examples.independent_store).2)
    = (Ok Next, (([TaskResult.to_dict result], 1), m')) ∧
    TaskResult.task_id result = "t1" ∧
    WorkflowEngine.heap m' !!! 1 = Examples.independent_store !!! 1.
Proof.
  assert (Hready : Crew.get_ready_tasks Examples.independent_store
                     Examples.independent_crew = [0; 1]) by done.
  split; [done|].
  destruct (sequential_pass_executes_first_ready Examples.answers
              Examples.clock Examples.show
              (Examples.engine Examples.independent_crew None
                 Examples.independent_store).1
              [] 0
              (Examples.engine Examples.independent_crew None
                 Examples.independent_store).2
              0 [1] Hready)
    as (result & m' & Hrun & Hbody & _ & Hothers & _).
  exists result, m'. split_and!.
  - exact Hbody.
  - vm_compute in Hrun. by injection Hrun as <- _.
  - by apply Hothers.
Defined.

Lemma answers_succeeds : executor_succeeds Examples.answers.
Proof. intros agent prompt w. by eexists _, _. Qed.

Lemma in_process_memory_reliable {W} (m : Scratchpad.t W) :
  Scratchpad._backend m = None → memory_reliable (Some m).
Proof. intros Hb p b [= <-] Hp. congruence. Qed.

(** C5 on two independent tasks. *)
Lemma independent_tasks_all_complete_witness :
  executor_succeeds Examples.answers ∧
  NoDup (Crew.tasks Examples.independent_crew) ∧
  ∃ out m',
    Examples.run Examples.answers 2 Examples.independent_crew None
      Examples.independent_store = Some (Ok out, m') ∧
    CrewOutput.success out = true ∧
    length (CrewOutput.tasks_output out) = 2.
Proof.
  assert (Hnd : NoDup (Crew.tasks Examples.independent_crew))
    by (apply (bool_decide_unpack _); by vm_compute).
  split_and!; [apply answers_succeeds|done|].
  destruct (independent_tasks_all_complete Examples.answers Examples.clock
              Examples.show
              (Examples.engine Examples.independent_crew None
                 Examples.independent_store).1
              (Examples.engine Examples.independent_crew None
                 Examples.independent_store).2
              2 answers_succeeds)
    as (out & m' & Hrun & Hsuccess & Hlen & _); try done.
  - by apply in_process_memory_reliable.
  - intros t Ht. simpl in Ht. by_cases_on Ht; simpl; lia.
  - intros t Ht. simpl in Ht. by_cases_on Ht; by split.
  - by exists out, m'.
Defined.

(** C5 as stated fails.  With an executor that answers every call and
    tasks without dependencies: a task that an earlier run completed is not
    executed again, so one task gives no entry; a task listed twice gives one
    entry for two list positions; and when the memory backend refuses the
    result, the tasks end failed and [success] is false. *)
Lemma independent_tasks_not_all_recorded :
  executor_succeeds Examples.answers ∧
  (∃ out m',
     Examples.run Examples.answers 5 Examples.rerun_crew None
       Examples.rerun_store = Some (Ok out, m') ∧
     length (Crew.tasks Examples.rerun_crew) = 1 ∧
     length (CrewOutput.tasks_output out) = 0) ∧
  (∃ out m',
     Examples.run Examples.answers 5 Examples.repeated_crew None
       Examples.repeated_store = Some (Ok out, m') ∧
     length (Crew.tasks Examples.repeated_crew) = 2 ∧
     length (CrewOutput.tasks_output out) = 1) ∧
  (∃ out m',
     Examples.run Examples.answers 5 Examples.independent_crew
       (Some Examples.broken_backend) Examples.independent_store
       = Some (Ok out, m') ∧
     CrewOutput.success out = false ∧
     Task.status (WorkflowEngine.heap m' !!! 0) = FAILED).
Proof.
  split_and!; [apply answers_succeeds| | |];
    eexists _, _; (split; [by vm_compute|by vm_compute]).
Qed.

(** C6 on an executor that refuses the call. *)
Lemma executor_failure_is_captured_witness :
  (∀ prompt, Examples.refuses Examples.planner prompt ()
             = (Raise (Exn "ConnectionError" "backend unreachable"), ())) ∧
  ∃ result m',
    WorkflowEngine._execute_task Examples.refuses Examples.clock Examples.show
      (Examples.engine Examples.independent_crew None
         Examples.independent_store).1
      0
      (Examples.engine Examples.independent_crew None
         Examples.independent_store).2
    = (Ok result, m') ∧
    TaskResult.success result = false ∧
    TaskResult.error result = "backend unreachable" ∧
    Task.status (WorkflowEngine.heap m' !!! 0) = FAILED ∧
    1 ∈ Crew.get_ready_tasks (WorkflowEngine.heap m') Examples.independent_crew.
Proof.
  split; [done|].
  edestruct (executor_failure_is_captured Examples.refuses Examples.clock
               Examples.show
               (Examples.engine Examples.independent_crew None
                  Examples.independent_store).1
               0
               (Examples.engine Examples.independent_crew None
                  Examples.independent_store).2)
    as (result & m' & Hrun & Hsuccess & Herror & _ & Hstatus & _ & _ & Hready).
  - simpl. lia.
  - by vm_compute.
  - reflexivity.
  - reflexivity.
  - exists result, m'. split_and!; try done.
    apply Hready; [done| |].
    + simpl. apply not_elem_of_nil.
    + apply list_elem_of_further, list_elem_of_here.
Defined.



